(** * extract_video_frames: a shallow embedding of [scripts/extract_video_frames.py]

    The script lists the [*.mp4] / [*.MP4] entries of a directory, skips the
    ones whose frame directory already holds frames, runs [ffmpeg] on the
    others and prints a summary.

    Scope of the model.
    - Names are byte strings; a path is the list of its components.
    - The filesystem is the finite set of paths that exist.  Entries carry no
      file/directory distinction and every [pathlib] call the script makes
      returns normally: runs cut short by an [OSError] (permissions, a regular
      file standing where an output directory is wanted, a full disk) are
      outside the model.
    - Globbing follows POSIX [pathlib]: case-sensitive, hidden entries
      included, nothing below a path that does not exist.
    - [ffmpeg] is a parameter: for its k-th invocation and the video it is
      given it answers with an exit status, what it printed, and how many
      frames it wrote before it stopped.
    - [print] appends one structured line to the standard output. *)

From Stdlib Require Import Ascii DecimalString.
From Stdlib Require DecimalNat.
From stdpp Require Import gmap strings list sorting.

Set Default Proof Using "Type".

(* ===================================================================== *)
(** * Names: [fnmatch] patterns and [PurePath.stem]                       *)
(* ===================================================================== *)

Module Name.

(** [fnmatch.fnmatchcase] restricted to the pattern language the script
    uses: [*] matches any run of characters, [?] any single character,
    every other character matches itself. *)
Fixpoint fnmatch (pat name : string) : bool :=
  match pat with
  | EmptyString => match name with EmptyString => true | _ => false end
  | String c pat' =>
      if Ascii.eqb c "*"%char then
        (fix star (n : string) : bool :=
           fnmatch pat' n ||
           match n with
           | EmptyString => false
           | String _ n' => star n'
           end) name
      else
        match name with
        | EmptyString => false
        | String d name' =>
            (Ascii.eqb c "?"%char || Ascii.eqb c d) && fnmatch pat' name'
        end
  end.

(** The inner loop of [fnmatch] for a [*], as a function of its own. *)
Fixpoint star (pat' n : string) : bool :=
  fnmatch pat' n ||
  match n with
  | EmptyString => false
  | String _ n' => star pat' n'
  end.

(** [str.rfind(c)]: the last index at which [c] occurs. *)
Fixpoint rfind (c : ascii) (s : string) : option nat :=
  match s with
  | EmptyString => None
  | String d s' =>
      match rfind c s' with
      | Some i => Some (S i)
      | None => if Ascii.eqb d c then Some 0 else None
      end
  end.

(** [PurePath.stem]: the name without its last suffix.  A leading dot and
    a trailing dot do not start a suffix
    ([if 0 < i < len(name) - 1: return name[:i]]). *)
Definition stem (name : string) : string :=
  match rfind "."%char name with
  | Some i =>
      if (0 <? i) && (i <? String.length name - 1)
      then String.substring 0 i name
      else name
  | None => name
  end.

(** ASCII lower-casing, [str.lower] on the characters that matter here. *)
Definition lower_ascii (c : ascii) : ascii :=
  let n := nat_of_ascii c in
  if (65 <=? n) && (n <=? 90) then ascii_of_nat (n + 32) else c.

Fixpoint lower (s : string) : string :=
  match s with
  | EmptyString => EmptyString
  | String c s' => String (lower_ascii c) (lower s')
  end.

(** [PurePath.suffix]: the part of the name [stem] leaves out. *)
Definition suffix (name : string) : string :=
  match rfind "."%char name with
  | Some i =>
      if (0 <? i) && (i <? String.length name - 1)
      then String.substring i (String.length name - i) name
      else EmptyString
  | None => EmptyString
  end.

(** [printf("%04d")]: decimal, padded with zeros to four digits. *)
Definition decimal (k : nat) : string :=
  NilZero.string_of_uint (Nat.to_uint k).

Fixpoint zeros (n : nat) : string :=
  match n with
  | 0 => EmptyString
  | S n' => String "0"%char (zeros n')
  end.

Definition pad4 (k : nat) : string :=
  let d := decimal k in zeros (4 - String.length d) +:+ d.

(** The file name [frame_%04d.jpg] expands to for frame number [k]. *)
Definition frame_name (k : nat) : string :=
  "frame_" +:+ pad4 k +:+ ".jpg".

(** A name that ends in [ext]. *)
Definition ends_in (ext name : string) : Prop :=
  ∃ base, name = base +:+ ext.

(** A frame file: [frame_], anything, [.jpg]. *)
Definition is_frame_name (name : string) : Prop :=
  ∃ mid, name = "frame_" +:+ mid +:+ ".jpg".

(** A name whose extension is [.mp4] when case is ignored: the suffix,
    lower-cased, is [.mp4]. *)
Definition has_mp4_extension_ignoring_case (name : string) : Prop :=
  lower (suffix name) = ".mp4".

(** A pattern without wildcards. *)
Fixpoint literal (pat : string) : bool :=
  match pat with
  | EmptyString => true
  | String c pat' =>
      negb (Ascii.eqb c "*"%char) && negb (Ascii.eqb c "?"%char) && literal pat'
  end.

End Name.

(* ===================================================================== *)
(** * Paths and the filesystem                                            *)
(* ===================================================================== *)

Definition path : Type := list string.

(** [p / name] *)
Definition child (p : path) (name : string) : path := p ++ [name].
Infix "/" := child : stdpp_scope.

(** [p.name]: the final component. *)
Definition name_of (p : path) : string := default EmptyString (last p).

(** [p.stem] *)
Definition stem_of (p : path) : string := Name.stem (name_of p).

Module FS.

(** [child_name d p] is [Some n] exactly when [p] is the entry [n] of [d]. *)
Fixpoint child_name (d p : path) : option string :=
  match d, p with
  | [], [n] => Some n
  | a :: d', b :: p' => if decide (a = b) then child_name d' p' else None
  | _, _ => None
  end.

(** [os.scandir(d)]: the names of the entries of [d], in the order the
    set enumerates them. *)
Definition listdir (s : gset path) (d : path) : list string :=
  omap (child_name d) (elements s).

(** [p.exists()]: the empty path is the directory that paths start from,
    which is always there. *)
Definition present (s : gset path) (p : path) : Prop := p = [] ∨ p ∈ s.

#[global] Instance present_dec s p : Decision (present s p).
Proof. unfold present. apply _. Defined.

(** [Path(d).glob(pat)] for a one-component pattern: nothing when [d] does
    not exist, else the entries of [d] whose name matches. *)
Definition glob (s : gset path) (d : path) (pat : string) : list path :=
  if bool_decide (present s d)
  then child d <$> filter (λ n, Name.fnmatch pat n = true) (listdir s d)
  else [].

(** The non-empty prefixes of [p]: the directories [mkdir -p] goes
    through, [p] itself last. *)
Fixpoint prefixes (p : path) : list path :=
  match p with
  | [] => []
  | a :: p' => [a] :: ((a ::.) <$> prefixes p')
  end.

(** [p.mkdir(parents=True, exist_ok=True)] *)
Definition mkdir_p (p : path) (s : gset path) : gset path :=
  s ∪ list_to_set (prefixes p).

(** What one run of the tool leaves in [out]: frames 1 to [n]. *)
Definition frame_paths (out : path) (n : nat) : list path :=
  (λ k, out / Name.frame_name k) <$> seq 1 n.

Definition write_frames (out : path) (n : nat) (s : gset path) : gset path :=
  s ∪ list_to_set (frame_paths out n).

(** Order of [PurePosixPath]: component by component, each compared as a
    string (by code point). *)
Fixpoint path_leb (p q : path) : bool :=
  match p, q with
  | [], _ => true
  | _ :: _, [] => false
  | a :: p', b :: q' =>
      match String.compare a b with
      | Lt => true
      | Gt => false
      | Eq => path_leb p' q'
      end
  end.

Definition path_le (p q : path) : Prop := path_leb p q = true.

#[global] Instance path_le_dec : RelDecision path_le.
Proof. intros p q. unfold path_le. apply _. Defined.

(** [sorted(paths)] *)
Definition sorted (l : list path) : list path := merge_sort path_le l.

(** [entries s d P n]: directory [d] of [s] has exactly [n] entries whose
    name satisfies [P]. *)
Definition entries (s : gset path) (d : path) (P : string → Prop) (n : nat)
  : Prop :=
  ∃ l, NoDup l ∧ (∀ e, e ∈ l ↔ d / e ∈ s ∧ P e) ∧ length l = n.

End FS.

(* ===================================================================== *)
(** * The world the script runs in                                        *)
(* ===================================================================== *)

(** One constructor per [print] call of the script, holding the values the
    f-string interpolates. *)
Inductive line : Type :=
  | FFmpegFound (version : string)      (* "✓ FFmpeg found: {version}" *)
  | FFmpegNotFound      (* "✗ FFmpeg not found. Please install ffmpeg:" *)
  | BrewInstall                         (* "  brew install ffmpeg" *)
  | Running (video : string) (out : path) (pattern : string)
                                        (* "Running: ffmpeg -i {name} {out}/{pattern}" *)
  | DirNotFound (videos_dir : path)     (* "Videos directory not found: {videos_dir}" *)
  | PleaseCreate        (* "Please create the directory and add your video files." *)
  | NoVideos (videos_dir : path)
      (* "✗ No mp4 video files found in: {videos_dir}" *)
  | Rule                                (* a row of fifty "=" *)
  | Found (n : nat)                     (* "Found {n} video(s) to process" *)
  | Processing (i total : nat) (video : string)
                                        (* "[{i}/{total}] Processing: {name}" *)
  | Skipping (existing_frames : nat)    (* "  Skipping (already processed: {k} frames)" *)
  | Blank                               (* an empty line *)
  | Created (video_name sub : string)   (* "Created: {video_name}/{sub}/" *)
  | Extracting                          (* "Extracting frames..." *)
  | Extracted (frame_count : nat)       (* "Extracted {frame_count} frames" *)
  | FailedToExtract                     (* "Failed to extract frames" *)
  | Error (msg : option string)         (* "Error: {error_msg}" *)
  | SummaryTitle                        (* "SUMMARY" *)
  | SumProcessed (n : nat)              (* "Processed: {n}" *)
  | SumSkipped (n : nat)                (* "Skipped:   {n}" *)
  | SumFailed (n : nat)                 (* "Failed:    {n}" *)
  | SumTotal (n : nat)                  (* "Total:     {n}" *)
  | DesktopMissing (desktop : path)
      (* "Error: Desktop directory not found at: {desktop}" *)
  | VideosDirectory (videos_dir : path) (* "Videos directory: {videos_dir}" *).

(** How [subprocess.run(..., check=True, timeout=300)] ends. *)
Inductive tool_status : Type :=
  | Exit0                               (* returns a CompletedProcess *)
  | ExitError (stderr : string)         (* raises CalledProcessError *)
  | TimedOut                            (* raises TimeoutExpired *).

(** One run of [ffmpeg -i video out/frame_%04d.jpg]: how it ended, what it
    printed on its standard output, and how many frames it had written to
    [out] by then (numbered from 1, as the image muxer does). *)
Record tool_run : Type := ToolRun {
  status : tool_status;
  tool_stdout : string;
  frames_written : nat
}.

Record world : Type := World {
  files : gset path;          (* the paths that exist *)
  stdout : list line;         (* what has been printed, oldest first *)
  invocations : list path     (* the videos ffmpeg was run on, oldest first *)
}.

(** The script's effects: a state monad over the world. *)
Definition M (A : Type) : Type := world → A * world.

#[global] Instance M_ret : MRet M := λ A x w, (x, w).
#[global] Instance M_bind : MBind M :=
  λ A B f m w, let (x, w') := m w in f x w'.

Definition path_exists (p : path) : M bool :=
  λ w, (bool_decide (FS.present (files w) p), w).

Definition glob (d : path) (pat : string) : M (list path) :=
  λ w, (FS.glob (files w) d pat, w).

Definition mkdir (p : path) : M unit :=
  λ w, (tt, World (FS.mkdir_p p (files w)) (stdout w) (invocations w)).

Definition print (l : line) : M unit :=
  λ w, (tt, World (files w) (stdout w ++ [l]) (invocations w)).

(* ===================================================================== *)
(** * The script                                                          *)
(* ===================================================================== *)

Record counters : Type := Counters {
  processed_count : nat;
  skipped_count : nat;
  failed_count : nat
}.

Definition timeout_msg : string :=
  "FFmpeg timed out (>5 minutes) - video file may be corrupted or too large".

Definition error_msg_of (stderr : string) : string :=
  "FFmpeg error: " +:+ stderr.

Section Script.

(** The external tool: its answer to its [k]-th invocation (counting the
    earlier ones in [invocations]) on a given video. *)
Variable ffmpeg : nat → path → tool_run.

(** [subprocess.run(["ffmpeg", "-i", video, out/frame_%04d.jpg], ...)] *)
Definition subprocess_run (video out : path) : M tool_status :=
  λ w,
    let r := ffmpeg (length (invocations w)) video in
    (status r,
     World (FS.write_frames out (frames_written r) (files w))
           (stdout w)
           (invocations w ++ [video])).

Definition get_video_files (videos_dir : path) : M (list path) :=
  video_files ← glob videos_dir "*.mp4";
  upper ← glob videos_dir "*.MP4";
  mret (FS.sorted (video_files ++ upper)).

Definition is_already_processed (video_path videos_dir : path)
  : M (bool * nat) :=
  let video_name := stem_of video_path in
  let all_frames_dir := videos_dir / video_name / "all_frames" in
  there ← path_exists all_frames_dir;
  if there : bool then
    frame_files ← glob all_frames_dir "frame_*.jpg";
    match frame_files with
    | _ :: _ => mret (true, length frame_files)
    | [] => mret (false, 0)
    end
  else mret (false, 0).

Definition extract_frames (video_path output_dir : path)
  : M (bool * nat * option string) :=
  mkdir output_dir;;
  print (Running (name_of video_path) output_dir "frame_%04d.jpg");;
  result ← subprocess_run video_path output_dir;
  match result with
  | Exit0 =>
      frame_files ← glob output_dir "frame_*.jpg";
      let frame_count := length frame_files in
      mret (true, frame_count, None)
  | TimedOut => mret (false, 0, Some timeout_msg)
  | ExitError stderr => mret (false, 0, Some (error_msg_of stderr))
  end.

(** The body of the [for] loop, for the [i]-th video of [total]. *)
Definition loop_body (videos_dir : path) (force : bool) (total i : nat)
    (video_path : path) (c : counters) : M counters :=
  let video_name := stem_of video_path in
  print (Processing i total (name_of video_path));;
  '(already_processed, existing_frames) ←
    is_already_processed video_path videos_dir;
  if already_processed && negb force then
    print (Skipping existing_frames);;
    print Blank;;
    mret (Counters (processed_count c) (skipped_count c + 1) (failed_count c))
  else
    let video_dir := videos_dir / video_name in
    let all_frames_dir := video_dir / "all_frames" in
    let release_frames_dir := video_dir / "release_frames" in
    mkdir all_frames_dir;;
    mkdir release_frames_dir;;
    print (Created video_name "all_frames");;
    print (Created video_name "release_frames");;
    print Extracting;;
    '(success, frame_count, error_msg) ←
      extract_frames video_path all_frames_dir;
    if success : bool then
      print (Extracted frame_count);;
      print Blank;;
      mret (Counters (processed_count c + 1) (skipped_count c) (failed_count c))
    else
      print FailedToExtract;;
      print (Error error_msg);;
      print Blank;;
      mret (Counters (processed_count c) (skipped_count c) (failed_count c + 1)).

(** [for i, video_path in enumerate(video_files, i): ...] *)
Fixpoint loop (videos_dir : path) (force : bool) (total i : nat)
    (video_files : list path) (c : counters) : M counters :=
  match video_files with
  | [] => mret c
  | video_path :: rest =>
      c' ← loop_body videos_dir force total i video_path c;
      loop videos_dir force total (S i) rest c'
  end.

Definition process_videos (videos_dir : path) (force : bool) : M unit :=
  there ← path_exists videos_dir;
  if negb there then
    print (DirNotFound videos_dir);;
    print PleaseCreate
  else
    video_files ← get_video_files videos_dir;
    match video_files with
    | [] => print (NoVideos videos_dir)
    | _ :: _ =>
        let total := length video_files in
        print Rule;;
        print (Found total);;
        print Rule;;
        c ← loop videos_dir force total 1 video_files (Counters 0 0 0);
        print Rule;;
        print SummaryTitle;;
        print Rule;;
        print (SumProcessed (processed_count c));;
        print (SumSkipped (skipped_count c));;
        print (SumFailed (failed_count c));;
        print (SumTotal total);;
        print Rule
    end.

(** What [main] needs from outside the filesystem: the parsed command
    line, the home directory, and the answer of [ffmpeg -version] (its
    version token, or [None] when the call raises). *)
Record args : Type := Args {
  videos_dir_arg : option string;   (* --videos-dir, default None *)
  force_arg : bool                  (* --force *)
}.

Variable home : path.
Variable ffmpeg_version : option string.

(** [Path(s)]: the components of [s], without empty and [.] ones. *)
Fixpoint split_slash (acc : string) (s : string) : list string :=
  match s with
  | EmptyString => [String.rev acc]
  | String c s' =>
      if Ascii.eqb c "/"%char
      then String.rev acc :: split_slash EmptyString s'
      else split_slash (String c acc) s'
  end.

Definition Path (s : string) : path :=
  filter (λ n, n ≠ EmptyString ∧ n ≠ ".") (split_slash EmptyString s).

Definition check_ffmpeg_installed : M bool :=
  match ffmpeg_version with
  | Some version => print (FFmpegFound version);; mret true
  | None => print FFmpegNotFound;; print BrewInstall;; mret false
  end.

(** [get_desktop_path]: [inr] is the [FileNotFoundError] it raises. *)
Definition get_desktop_path : M (path + path) :=
  let desktop := home / "Desktop" in
  there ← path_exists desktop;
  if negb there then mret (inr desktop) else mret (inl desktop).

(** An empty string is falsy: [if args.videos_dir:] *)
Definition override_given (a : args) : bool :=
  match videos_dir_arg a with
  | Some s => negb (bool_decide (s = EmptyString))
  | None => false
  end.

(** [main], after [parse_args]; the result is the exit status of the
    process ([sys.exit(1)], or 0 when [main] returns). *)
Definition main (a : args) : M nat :=
  let continue (videos_dir : path) : M nat :=
    print (VideosDirectory videos_dir);;
    ok ← check_ffmpeg_installed;
    if negb ok then mret 1
    else process_videos videos_dir (force_arg a);; mret 0 in
  if override_given a then
    continue (Path (default EmptyString (videos_dir_arg a)))
  else
    d ← get_desktop_path;
    match d with
    | inl desktop => continue (desktop / "baseball_vids")
    | inr desktop => print (DesktopMissing desktop);; mret 1
    end.

(** How the tool answers a run of invocations, the first being its
    [k]-th. *)
Fixpoint statuses (k : nat) (inv : list path) : list tool_status :=
  match inv with
  | [] => []
  | v :: inv' => status (ffmpeg k v) :: statuses (S k) inv'
  end.

End Script.

(* ===================================================================== *)
(** * Observations on a run                                               *)
(* ===================================================================== *)

(** The frame directory of a video: [videos_dir / video_path.stem / "all_frames"]. *)
Definition frames_dir (videos_dir video_path : path) : path :=
  videos_dir / stem_of video_path / "all_frames".

Definition release_dir (videos_dir video_path : path) : path :=
  videos_dir / stem_of video_path / "release_frames".

(** What [is_already_processed] answers on a filesystem. *)
Definition check (s : gset path) (video_path videos_dir : path) : bool * nat :=
  let frame_files := FS.glob s (frames_dir videos_dir video_path) "frame_*.jpg" in
  match frame_files with
  | [] => (false, 0)
  | _ :: _ => (true, length frame_files)
  end.

(** The filesystem after the loop body has gone through an extraction in
    which the tool wrote [n] frames. *)
Definition files_after_attempt (videos_dir video_path : path) (n : nat)
    (s : gset path) : gset path :=
  let afd := frames_dir videos_dir video_path in
  FS.write_frames afd n
    (FS.mkdir_p afd (FS.mkdir_p (release_dir videos_dir video_path) (FS.mkdir_p afd s))).

#[global] Instance tool_status_eq_dec : EqDecision tool_status.
Proof. solve_decision. Defined.


(** The three ways the loop body updates the counters. *)
Definition bump_processed (c : counters) : counters :=
  Counters (processed_count c + 1) (skipped_count c) (failed_count c).
Definition bump_skipped (c : counters) : counters :=
  Counters (processed_count c) (skipped_count c + 1) (failed_count c).
Definition bump_failed (c : counters) : counters :=
  Counters (processed_count c) (skipped_count c) (failed_count c + 1).

(** The progress line of a video, if [l] is one. *)
Definition processing_of (l : line) : option (nat * nat * string) :=
  match l with
  | Processing i total video => Some (i, total, video)
  | _ => None
  end.


(** The summary block [process_videos] ends with. *)
Definition summary (c : counters) (total : nat) : list line :=
  [Rule; SummaryTitle; Rule;
   SumProcessed (processed_count c); SumSkipped (skipped_count c);
   SumFailed (failed_count c); SumTotal total; Rule].

(** The counters and the total that the summary block at the end of the
    output shows. *)
Definition printed_summary (out : list line) : option (counters * nat) :=
  match reverse out with
  | Rule :: SumTotal t :: SumFailed f :: SumSkipped s :: SumProcessed p
      :: Rule :: SummaryTitle :: Rule :: _ => Some (Counters p s f, t)
  | _ => None
  end.

(** The paths an extraction attempt on a video may create. *)
Definition touched (videos_dir video_path q : path) : Prop :=
  (q ≠ [] ∧ ∃ r, frames_dir videos_dir video_path = q ++ r)
  ∨ (q ≠ [] ∧ ∃ r, release_dir videos_dir video_path = q ++ r)
  ∨ ∃ k, q = frames_dir videos_dir video_path / Name.frame_name k.

(* ===================================================================== *)
(** * Worlds and tools for the examples                                   *)
(* ===================================================================== *)


Definition one_frame_tool : nat → path → tool_run :=
  λ _ _, ToolRun Exit0 EmptyString 1.

(** A video the tool cannot read: it exits with an error before writing a
    frame. *)
Definition unreadable_world : world :=
  World {[ ["videos"]; ["videos"; "bad.mp4"] ]} [] [].

Definition failing_tool : nat → path → tool_run :=
  λ _ _, ToolRun (ExitError "Invalid data found when processing input") EmptyString 0.


(* ===================================================================== *)
(** * The definitions at work                                             *)
(* ===================================================================== *)

Example fnmatch_lower : Name.fnmatch "*.mp4" "game1.mp4" = true.
Proof. reflexivity. Qed.

Example fnmatch_is_case_sensitive : Name.fnmatch "*.mp4" "game2.MP4" = false.
Proof. reflexivity. Qed.

Example fnmatch_hidden : Name.fnmatch "*.mp4" ".mp4" = true.
Proof. reflexivity. Qed.

Example fnmatch_frame_jpg : Name.fnmatch "frame_*.jpg" "frame_0001.jpg" = true.
Proof. reflexivity. Qed.

Example fnmatch_frame_png : Name.fnmatch "frame_*.jpg" "frame_0001.png" = false.
Proof. reflexivity. Qed.

Example stem_video : Name.stem "game1.mp4" = "game1".
Proof. reflexivity. Qed.

Example stem_two_suffixes : Name.stem "a.mp4.mp4" = "a.mp4".
Proof. reflexivity. Qed.

Example stem_hidden : Name.stem ".mp4" = ".mp4".
Proof. reflexivity. Qed.

Example mixed_case_extension : Name.has_mp4_extension_ignoring_case "clip.Mp4".
Proof. reflexivity. Qed.

Example text_extension : ¬ Name.has_mp4_extension_ignoring_case "notes.txt".
Proof. intros H. discriminate H. Qed.

Example frame_name_12 : Name.frame_name 12 = "frame_0012.jpg".
Proof. reflexivity. Qed.

Example frame_name_five_digits : Name.frame_name (10 * 1000) = "frame_10000.jpg".
Proof. reflexivity. Qed.

Example Path_normalises : Path "/home/u/./vids//x" = ["home"; "u"; "vids"; "x"].
Proof. reflexivity. Qed.

Example mkdir_p_creates_parents :
  elements (FS.mkdir_p ["videos"; "game1"; "all_frames"] ∅)
  ≡ₚ [ ["videos"]; ["videos"; "game1"]; ["videos"; "game1"; "all_frames"] ].
Proof. vm_compute. by rewrite (Permutation_swap _ _ []). Qed.

(** Upper case sorts before lower case. *)
Example sorted_by_code_point :
  (get_video_files ["videos"]
     (World {[ ["videos"]; ["videos"; "a.mp4"]; ["videos"; "Z.mp4"] ]} [] [])).1
  = [ ["videos"; "Z.mp4"]; ["videos"; "a.mp4"] ].
Proof. vm_compute. reflexivity. Qed.

(** A full run over two videos. *)
Example run_two_videos :
  stdout (process_videos one_frame_tool ["videos"] false
            (World {[ ["videos"]; ["videos"; "game1.mp4"]; ["videos"; "game2.MP4"];
                      ["videos"; "notes.txt"] ]} [] [])).2
  = [ Rule; Found 2; Rule;
      Processing 1 2 "game1.mp4";
      Created "game1" "all_frames"; Created "game1" "release_frames"; Extracting;
      Running "game1.mp4" ["videos"; "game1"; "all_frames"] "frame_%04d.jpg";
      Extracted 1; Blank;
      Processing 2 2 "game2.MP4";
      Created "game2" "all_frames"; Created "game2" "release_frames"; Extracting;
      Running "game2.MP4" ["videos"; "game2"; "all_frames"] "frame_%04d.jpg";
      Extracted 1; Blank;
      Rule; SummaryTitle; Rule;
      SumProcessed 2; SumSkipped 0; SumFailed 0; SumTotal 2; Rule ].
Proof. vm_compute. reflexivity. Qed.

(** The output directory of [a.mp4.mp4] is named [a.mp4]: the next run
    takes it for a video and runs the tool on it. *)
Example output_directory_found_as_video :
  invocations
    (process_videos one_frame_tool ["videos"] false
       (process_videos one_frame_tool ["videos"] false
          (World {[ ["videos"]; ["videos"; "a.mp4.mp4"] ]} [] [])).2).2
  = [ ["videos"; "a.mp4.mp4"]; ["videos"; "a.mp4"] ].
Proof. vm_compute. reflexivity. Qed.

(* ===================================================================== *)
(** * What the two glob patterns accept                                   *)
(* ===================================================================== *)

Module NameFacts.
Import Name.

Lemma append_nil_l s : EmptyString +:+ s = s.
Proof. reflexivity. Qed.

Lemma append_cons c a b : String c a +:+ b = String c (a +:+ b).
Proof. reflexivity. Qed.

Ltac unfold_append := rewrite ?append_cons, ?append_nil_l in *.

Lemma fnmatch_star pat' n : fnmatch (String "*"%char pat') n = star pat' n.
Proof. induction n as [|d n IH]; simpl; [done|]. by rewrite <- IH. Qed.

Lemma star_spec pat' n :
  star pat' n = true ↔ ∃ a b, n = a +:+ b ∧ fnmatch pat' b = true.
Proof.
  induction n as [|d n IH]; simpl.
  - rewrite orb_false_r. split.
    + intros H. by exists EmptyString, EmptyString.
    + intros (a & b & Hab & H). destruct a; unfold_append; [by subst | done].
  - rewrite orb_true_iff, IH. split.
    + intros [H | (a & b & -> & H)].
      * by exists EmptyString, (String d n).
      * by exists (String d a), b.
    + intros (a & b & Hab & H). destruct a as [|c a]; unfold_append.
      * left. by subst.
      * right. injection Hab as -> ->. by exists a, b.
Qed.

Lemma fnmatch_literal lit n :
  literal lit = true → (fnmatch lit n = true ↔ n = lit).
Proof.
  revert n. induction lit as [|c lit IH]; intros n Hlit; simpl in *.
  - destruct n; split; done.
  - apply andb_true_iff in Hlit as [Hc Hlit].
    apply andb_true_iff in Hc as [Hs Hq].
    apply negb_true_iff in Hs, Hq. rewrite Hs, Hq. simpl.
    destruct n as [|d n]; [split; done|].
    rewrite andb_true_iff, Ascii.eqb_eq, (IH n Hlit).
    split; [intros [-> ->]; done | intros [= -> ->]; done].
Qed.

Lemma fnmatch_literal_prefix lit pat n :
  literal lit = true →
  (fnmatch (lit +:+ pat) n = true ↔ ∃ m, n = lit +:+ m ∧ fnmatch pat m = true).
Proof.
  revert n. induction lit as [|c lit IH]; intros n Hlit.
  - unfold_append. split; [intros H; by exists n | intros (m & -> & H); done].
  - simpl in Hlit. apply andb_true_iff in Hlit as [Hc Hlit].
    apply andb_true_iff in Hc as [Hs Hq].
    apply negb_true_iff in Hs, Hq.
    rewrite append_cons. cbn [fnmatch]. rewrite Hs, Hq. simpl.
    destruct n as [|d n].
    + split; [done | intros (m & Hm & _); done].
    + rewrite andb_true_iff, Ascii.eqb_eq, (IH n Hlit). split.
      * intros [-> (m & -> & H)]. by exists m.
      * intros (m & Hm & H). rewrite append_cons in Hm.
        injection Hm as -> ->. split; [done | by exists m].
Qed.

Lemma fnmatch_suffix ext n :
  literal ext = true →
  (fnmatch (String "*"%char ext) n = true ↔ ends_in ext n).
Proof.
  intros Hext. rewrite fnmatch_star, star_spec. unfold ends_in. split.
  - intros (a & b & -> & H). apply (fnmatch_literal _ _ Hext) in H as ->.
    by exists a.
  - intros (a & ->). exists a, ext. split; [done|].
    by apply fnmatch_literal.
Qed.

Lemma fnmatch_mp4 n : fnmatch "*.mp4" n = true ↔ ends_in ".mp4" n.
Proof. by apply fnmatch_suffix. Qed.

Lemma fnmatch_MP4 n : fnmatch "*.MP4" n = true ↔ ends_in ".MP4" n.
Proof. by apply fnmatch_suffix. Qed.

Lemma fnmatch_frame n : fnmatch "frame_*.jpg" n = true ↔ is_frame_name n.
Proof.
  change "frame_*.jpg" with ("frame_" +:+ "*.jpg").
  rewrite (fnmatch_literal_prefix "frame_" "*.jpg" n eq_refl).
  unfold is_frame_name. split.
  - intros (m & -> & H). apply (fnmatch_suffix ".jpg" m eq_refl) in H as [mid ->].
    by exists mid.
  - intros [mid ->]. exists (mid +:+ ".jpg"). split; [done|].
    apply (fnmatch_suffix ".jpg" _ eq_refl). by exists mid.
Qed.

(** Every name the tool writes is a frame name. *)
Lemma frame_name_is_frame k : is_frame_name (frame_name k).
Proof. by exists (pad4 k). Qed.

(** The two video patterns never accept the same name. *)
Lemma mp4_MP4_disjoint n : ends_in ".mp4" n → ends_in ".MP4" n → False.
Proof.
  intros [a Ha] [b Hb]. subst n. revert b Hb.
  induction a as [|c a IH]; intros b Hb.
  - by destruct b as [|c1 [|c2 [|c3 [|c4 [|c5 b]]]]]; unfold_append.
  - destruct b as [|d b]; unfold_append.
    + by destruct a as [|c1 [|c2 [|c3 [|c4 a]]]]; unfold_append.
    + injection Hb as _ Hb. by apply (IH b).
Qed.

End NameFacts.

(* ===================================================================== *)
(** * Facts about the filesystem operations                               *)
(* ===================================================================== *)

Module FSFacts.
Import FS NameFacts.

Lemma child_name_spec d p n : child_name d p = Some n ↔ p = d / n.
Proof.
  unfold child. revert p. induction d as [|a d IH]; intros p; simpl.
  - destruct p as [|b [|c p]]; split; intros H; by simplify_eq.
  - destruct p as [|b p]; [split; intros H; by simplify_eq|].
    case_decide as Hab.
    + subst b. rewrite IH. split; intros H; by simplify_eq.
    + split; intros H; by simplify_eq.
Qed.

#[global] Instance child_inj d : Inj (=) (=) (child d).
Proof. intros n m H. unfold child in H. by simplify_list_eq. Qed.

Lemma child_name_inj d p q n :
  child_name d p = Some n → child_name d q = Some n → p = q.
Proof. rewrite !child_name_spec. congruence. Qed.

Lemma elem_of_listdir s d n : n ∈ listdir s d ↔ d / n ∈ s.
Proof.
  unfold listdir. rewrite list_elem_of_omap. split.
  - intros (p & Hp & Hn). apply child_name_spec in Hn as ->.
    by apply elem_of_elements.
  - intros H. exists (d / n). split; [by apply elem_of_elements|].
    by apply child_name_spec.
Qed.

Lemma NoDup_omap_inj {A B} (f : A → option B) (l : list A) :
  (∀ x y z, f x = Some z → f y = Some z → x = y) →
  NoDup l → NoDup (omap f l).
Proof.
  intros Hinj. induction 1 as [|x l Hx Hl IH]; simpl; [constructor|].
  destruct (f x) as [z|] eqn:Hfx; [|done].
  constructor; [|done].
  rewrite list_elem_of_omap. intros (y & Hy & Hfy).
  by rewrite (Hinj x y z Hfx Hfy) in Hx.
Qed.

Lemma NoDup_listdir s d : NoDup (listdir s d).
Proof.
  apply NoDup_omap_inj; [|apply NoDup_elements].
  intros p q n. apply child_name_inj.
Qed.

(** The listing of a directory depends on its entries only, up to the
    order in which they come. *)
Lemma listdir_Permutation s s' d :
  (∀ n, d / n ∈ s ↔ d / n ∈ s') → listdir s d ≡ₚ listdir s' d.
Proof.
  intros H. apply NoDup_Permutation; [apply NoDup_listdir..|].
  intros n. by rewrite !elem_of_listdir.
Qed.

Lemma elem_of_glob s d pat p :
  p ∈ glob s d pat ↔
  present s d ∧ ∃ n, p = d / n ∧ d / n ∈ s ∧ Name.fnmatch pat n = true.
Proof.
  unfold glob. case_bool_decide as Hd.
  - rewrite list_elem_of_fmap. split.
    + intros (n & -> & Hn). apply list_elem_of_filter in Hn as [Hm Hn].
      apply elem_of_listdir in Hn. eauto.
    + intros (_ & n & -> & Hn & Hm). exists n. split; [done|].
      apply list_elem_of_filter. by rewrite elem_of_listdir.
  - split; [by intros ?%elem_of_nil | by intros [? _]].
Qed.

Lemma NoDup_glob s d pat : NoDup (glob s d pat).
Proof.
  unfold glob. case_bool_decide; [|constructor].
  apply (NoDup_fmap_2 _), NoDup_filter, NoDup_listdir.
Qed.

Lemma glob_absent s d pat : ¬ present s d → glob s d pat = [].
Proof. intros H. unfold glob. by rewrite bool_decide_eq_false_2. Qed.

Lemma entries_unique s d P n m : FS.entries s d P n → FS.entries s d P m → n = m.
Proof.
  intros (l & Hl & Hin & <-) (k & Hk & Hik & <-).
  apply Permutation_length, NoDup_Permutation; [done..|].
  intros e. by rewrite Hin, Hik.
Qed.

Lemma entries_glob s d pat :
  present s d →
  FS.entries s d (λ e, Name.fnmatch pat e = true) (length (glob s d pat)).
Proof.
  intros Hd. unfold glob. rewrite bool_decide_eq_true_2 by done.
  exists (filter (λ n, Name.fnmatch pat n = true) (listdir s d)).
  split; [apply NoDup_filter, NoDup_listdir|].
  split; [|by rewrite length_fmap].
  intros e. rewrite list_elem_of_filter, elem_of_listdir. tauto.
Qed.

Lemma entries_iff s d P Q n :
  (∀ e, P e ↔ Q e) → FS.entries s d P n → FS.entries s d Q n.
Proof.
  intros HPQ (l & Hl & Hin & Hn). exists l. split; [done|]. split; [|done].
  intros e. by rewrite Hin, HPQ.
Qed.

(** The frame files of [d]: what [d.glob("frame_*.jpg")] counts. *)
Lemma entries_frames s d :
  present s d → FS.entries s d Name.is_frame_name (length (glob s d "frame_*.jpg")).
Proof.
  intros Hd. eapply entries_iff; [|by apply entries_glob].
  intros e. apply fnmatch_frame.
Qed.

Lemma glob_length_agree s s' d pat :
  (present s d ↔ present s' d) → (∀ n, d / n ∈ s ↔ d / n ∈ s') →
  length (glob s d pat) = length (glob s' d pat).
Proof.
  intros Hd Hn. unfold glob.
  rewrite (bool_decide_ext _ _ Hd). case_bool_decide; [|done].
  rewrite !length_fmap. apply Permutation_length.
  by apply filter_Permutation, listdir_Permutation.
Qed.

Lemma glob_Permutation s s' d pat :
  (present s d ↔ present s' d) →
  (∀ n, Name.fnmatch pat n = true → d / n ∈ s ↔ d / n ∈ s') →
  glob s d pat ≡ₚ glob s' d pat.
Proof.
  intros Hd Hn. apply NoDup_Permutation; [apply NoDup_glob..|].
  intros p. rewrite !elem_of_glob, Hd.
  split; intros (? & n & -> & ? & Hm); (split; [done|]); exists n;
    (split; [done|]); (split; [|done]); by apply (Hn n Hm).
Qed.

Lemma elem_of_prefixes p q :
  q ∈ prefixes p ↔ q ≠ [] ∧ ∃ r, p = q ++ r.
Proof.
  revert q. induction p as [|a p IH]; intros q; simpl.
  - split; [by intros ?%elem_of_nil|].
    intros [Hq [r Hr]]. by destruct q.
  - rewrite elem_of_cons, list_elem_of_fmap. split.
    + intros [-> | (q' & -> & Hq')]; [split; [done | by exists p]|].
      apply IH in Hq' as [_ [r ->]]. split; [done | by exists r].
    + intros [Hq [r Hr]]. destruct q as [|b q]; [done|].
      simpl in Hr. injection Hr as <- ->.
      destruct q as [|c q]; [by left|]. right.
      exists (c :: q). split; [done|]. apply IH. split; [done | by exists r].
Qed.

Lemma elem_of_mkdir_p p s q :
  q ∈ mkdir_p p s ↔ q ∈ s ∨ (q ≠ [] ∧ ∃ r, p = q ++ r).
Proof.
  unfold mkdir_p. by rewrite elem_of_union, elem_of_list_to_set, elem_of_prefixes.
Qed.

Lemma mkdir_p_self p s : present (mkdir_p p s) p.
Proof.
  unfold present. destruct (decide (p = [])) as [|Hp]; [by left | right].
  apply elem_of_mkdir_p. right. split; [done|].
  exists []. by rewrite app_nil_r.
Qed.

Lemma present_mono s s' p : s ⊆ s' → present s p → present s' p.
Proof. intros Hs [-> | H]; [by left | right; by apply Hs]. Qed.

Lemma elem_of_write_frames out n s q :
  q ∈ write_frames out n s ↔
  q ∈ s ∨ ∃ k, 1 ≤ k ≤ n ∧ q = out / Name.frame_name k.
Proof.
  unfold write_frames, frame_paths.
  rewrite elem_of_union, elem_of_list_to_set, list_elem_of_fmap.
  apply or_iff_compat_l. split.
  - intros (k & -> & Hk). apply elem_of_seq in Hk. exists k. split; [lia | done].
  - intros (k & Hk & ->). exists k. split; [done|]. apply elem_of_seq. lia.
Qed.

End FSFacts.

(* ===================================================================== *)
(** * The order [sorted] uses                                             *)
(* ===================================================================== *)

Module OrderFacts.
Import FS.

Lemma ascii_compare_refl c : Ascii.compare c c = Eq.
Proof. unfold Ascii.compare. apply N.compare_refl. Qed.

Lemma ascii_compare_lt_trans a b c :
  Ascii.compare a b = Lt → Ascii.compare b c = Lt → Ascii.compare a c = Lt.
Proof. unfold Ascii.compare. rewrite !N.compare_lt_iff. lia. Qed.

Lemma string_compare_refl s : String.compare s s = Eq.
Proof. induction s as [|c s IH]; simpl; [done|]. by rewrite ascii_compare_refl. Qed.

Lemma string_compare_eq s t : String.compare s t = Eq ↔ s = t.
Proof.
  split; [apply String.compare_eq_iff|]. intros ->. apply string_compare_refl.
Qed.

Lemma string_compare_lt_trans s t u :
  String.compare s t = Lt → String.compare t u = Lt → String.compare s u = Lt.
Proof.
  revert t u. induction s as [|a s IH]; intros [|b t] [|c u]; simpl; try done.
  destruct (Ascii.compare a b) eqn:Hab; [|
    |done].
  - apply Ascii.compare_eq_iff in Hab as ->.
    destruct (Ascii.compare b c); [apply IH | done | done].
  - intros _. destruct (Ascii.compare b c) eqn:Hbc; [| |done].
    + apply Ascii.compare_eq_iff in Hbc as ->. by rewrite Hab.
    + by rewrite (ascii_compare_lt_trans a b c).
Qed.

Lemma string_compare_gt_lt s t :
  String.compare s t = Gt ↔ String.compare t s = Lt.
Proof.
  rewrite (String.compare_antisym t s).
  destruct (String.compare s t); simpl; split; done.
Qed.

#[global] Instance path_le_total : Total path_le.
Proof.
  unfold path_le. intros p. induction p as [|a p IH]; intros [|b q]; simpl;
    [by left | by left | by right |].
  rewrite (String.compare_antisym b a).
  destruct (String.compare a b); simpl; [apply IH | by left | by right].
Qed.

#[global] Instance path_le_trans : Transitive path_le.
Proof.
  unfold path_le. intros p. induction p as [|a p IH]; intros [|b q] [|c r];
    simpl; try done.
  destruct (String.compare a b) eqn:Hab; [| |done].
  - apply string_compare_eq in Hab as ->.
    destruct (String.compare b c); [apply IH | done | done].
  - intros _. destruct (String.compare b c) eqn:Hbc; [| |done].
    + apply string_compare_eq in Hbc as ->. by rewrite Hab.
    + by rewrite (string_compare_lt_trans a b c).
Qed.

#[global] Instance path_le_antisym : AntiSymm (=) path_le.
Proof.
  unfold path_le. intros p. induction p as [|a p IH]; intros [|b q]; simpl;
    try done.
  rewrite (String.compare_antisym b a).
  destruct (String.compare a b) eqn:Hab; simpl; try done.
  apply string_compare_eq in Hab as ->. intros Hpq Hqp. f_equal. by apply IH.
Qed.

Lemma sorted_Permutation l : sorted l ≡ₚ l.
Proof. apply merge_sort_Permutation. Qed.

Lemma sorted_StronglySorted l : StronglySorted path_le (sorted l).
Proof. apply StronglySorted_merge_sort; apply _. Qed.

Lemma elem_of_sorted l p : p ∈ sorted l ↔ p ∈ l.
Proof. by rewrite sorted_Permutation. Qed.

Lemma length_sorted l : length (sorted l) = length l.
Proof. by rewrite sorted_Permutation. Qed.

(** The sorted list does not depend on the order of the listing. *)
Lemma sorted_perm_eq l k : l ≡ₚ k → sorted l = sorted k.
Proof.
  intros H. apply (StronglySorted_unique path_le);
    [apply sorted_StronglySorted..|].
  by rewrite !sorted_Permutation.
Qed.

End OrderFacts.

(* ===================================================================== *)
(** * The script, one call at a time                                      *)
(* ===================================================================== *)

Section ScriptFacts.
Import NameFacts FSFacts OrderFacts.

Variable ffmpeg : nat → path → tool_run.

Lemma get_video_files_eq vd w :
  get_video_files vd w =
  (FS.sorted (FS.glob (files w) vd "*.mp4" ++ FS.glob (files w) vd "*.MP4"), w).
Proof. reflexivity. Qed.

Lemma is_already_processed_eq v vd w :
  is_already_processed v vd w = (check (files w) v vd, w).
Proof.
  unfold is_already_processed, check, mbind, M_bind, path_exists, glob, mret, M_ret.
  fold (frames_dir vd v).
  case_bool_decide as Hd.
  - by destruct (FS.glob (files w) (frames_dir vd v) "frame_*.jpg").
  - by rewrite glob_absent.
Qed.

Lemma extract_frames_eq v out w :
  extract_frames ffmpeg v out w =
  let r := ffmpeg (length (invocations w)) v in
  let w' := World (FS.write_frames out (frames_written r) (FS.mkdir_p out (files w)))
                  (stdout w ++ [Running (name_of v) out "frame_%04d.jpg"])
                  (invocations w ++ [v]) in
  (match status r with
   | Exit0 => (true, length (FS.glob (files w') out "frame_*.jpg"), None)
   | TimedOut => (false, 0, Some timeout_msg)
   | ExitError stderr => (false, 0, Some (error_msg_of stderr))
   end, w').
Proof.
  unfold extract_frames, mbind, M_bind, mkdir, print, subprocess_run, glob,
    mret, M_ret; simpl.
  by destruct (status (ffmpeg (length (invocations w)) v)).
Qed.

(** The loop body when the video is skipped. *)
Lemma loop_body_skip vd total i v c w :
  (check (files w) v vd).1 = true →
  loop_body ffmpeg vd false total i v c w =
  (Counters (processed_count c) (skipped_count c + 1) (failed_count c),
   World (files w)
         (stdout w ++ [Processing i total (name_of v);
                       Skipping (check (files w) v vd).2; Blank])
         (invocations w)).
Proof.
  intros Hc. unfold loop_body, mbind, M_bind.
  cbn -[is_already_processed]. rewrite is_already_processed_eq.
  cbn -[check extract_frames].
  destruct (check (files w) v vd) as [b n]; simpl in Hc; subst b.
  cbn. by rewrite <- !app_assoc.
Qed.

(** The loop body when extraction is attempted. *)
Lemma loop_body_attempt vd force total i v c w :
  (check (files w) v vd).1 && negb force = false →
  loop_body ffmpeg vd force total i v c w =
  let r := ffmpeg (length (invocations w)) v in
  let s' := files_after_attempt vd v (frames_written r) (files w) in
  let head := [Processing i total (name_of v);
               Created (stem_of v) "all_frames";
               Created (stem_of v) "release_frames";
               Extracting;
               Running (name_of v) (frames_dir vd v) "frame_%04d.jpg"] in
  match status r with
  | Exit0 =>
      (Counters (processed_count c + 1) (skipped_count c) (failed_count c),
       World s'
         (stdout w ++ head ++
            [Extracted (length (FS.glob s' (frames_dir vd v) "frame_*.jpg")); Blank])
         (invocations w ++ [v]))
  | TimedOut =>
      (Counters (processed_count c) (skipped_count c) (failed_count c + 1),
       World s'
         (stdout w ++ head ++ [FailedToExtract; Error (Some timeout_msg); Blank])
         (invocations w ++ [v]))
  | ExitError stderr =>
      (Counters (processed_count c) (skipped_count c) (failed_count c + 1),
       World s'
         (stdout w ++ head ++
            [FailedToExtract; Error (Some (error_msg_of stderr)); Blank])
         (invocations w ++ [v]))
  end.
Proof.
  intros Hc. unfold loop_body, mbind, M_bind.
  cbn -[is_already_processed extract_frames].
  rewrite is_already_processed_eq.
  cbn -[check extract_frames].
  destruct (check (files w) v vd) as [b n]; simpl in Hc.
  rewrite Hc. cbn -[extract_frames].
  rewrite extract_frames_eq.
  fold (frames_dir vd v) (release_dir vd v).
  unfold files_after_attempt. cbn.
  destruct (status (ffmpeg (length (invocations w)) v));
    cbn; by rewrite <- !app_assoc.
Qed.

Lemma statuses_app k inv inv' :
  statuses ffmpeg k (inv ++ inv')
  = statuses ffmpeg k inv ++ statuses ffmpeg (k + length inv) inv'.
Proof.
  revert k. induction inv as [|v inv IH]; intros k; simpl.
  - by rewrite Nat.add_0_r.
  - rewrite IH. do 3 f_equal. lia.
Qed.

(** Every pass through the loop body is one of the two cases above. *)
Lemma loop_body_cases vd force total i v c w :
  ((check (files w) v vd).1 = true ∧ force = false ∧
   loop_body ffmpeg vd force total i v c w =
     (bump_skipped c,
      World (files w)
        (stdout w ++ [Processing i total (name_of v);
                      Skipping (check (files w) v vd).2; Blank])
        (invocations w)))
  ∨
  ((check (files w) v vd).1 && negb force = false ∧
   ∃ tail,
     loop_body ffmpeg vd force total i v c w =
       ((if decide (status (ffmpeg (length (invocations w)) v) = Exit0)
         then bump_processed c else bump_failed c),
        World (files_after_attempt vd v
                 (frames_written (ffmpeg (length (invocations w)) v)) (files w))
          (stdout w ++ Processing i total (name_of v) :: tail)
          (invocations w ++ [v])) ∧
     omap processing_of tail = []).
Proof.
  destruct ((check (files w) v vd).1 && negb force) eqn:Hc.
  - left. apply andb_true_iff in Hc as [Hc Hf]. apply negb_true_iff in Hf.
    subst force. split; [done|]. split; [done|]. by apply loop_body_skip.
  - right. split; [done|]. rewrite (loop_body_attempt _ _ _ _ _ _ _ Hc). cbn zeta.
    destruct (status (ffmpeg (length (invocations w)) v)); eexists;
      (split; [reflexivity | reflexivity]).
Qed.





(** The loop only appends to the standard output. *)
Lemma loop_stdout vd force total i vs c w :
  ∃ body, stdout (loop ffmpeg vd force total i vs c w).2 = stdout w ++ body.
Proof.
  revert i c w. induction vs as [|v vs IH]; intros i c w; simpl.
  - exists []. unfold mret, M_ret; simpl. by rewrite app_nil_r.
  - unfold mbind, M_bind.
    assert (∃ one, stdout (loop_body ffmpeg vd force total i v c w).2
                   = stdout w ++ one) as [one Hone].
    { destruct (loop_body_cases vd force total i v c w)
        as [(_ & _ & ->) | (_ & tail & -> & _)]; simpl; eauto. }
    destruct (loop_body ffmpeg vd force total i v c w) as [c1 w1].
    simpl in Hone. destruct (IH (S i) c1 w1) as [body Hbody].
    exists (one ++ body). by rewrite Hbody, Hone, <- app_assoc.
Qed.


(** [process_videos] when the directory exists and holds videos. *)
Lemma process_videos_run vd force w :
  FS.present (files w) vd →
  (get_video_files vd w).1 ≠ [] →
  let vs := (get_video_files vd w).1 in
  let total := length vs in
  let start := World (files w) (stdout w ++ [Rule; Found total; Rule])
                 (invocations w) in
  let r := loop ffmpeg vd force total 1 vs (Counters 0 0 0) start in
  process_videos ffmpeg vd force w =
  (tt, World (files r.2) (stdout r.2 ++ summary r.1 total) (invocations r.2)).
Proof.
  intros Hvd Hvs. unfold process_videos, mbind, M_bind, path_exists.
  rewrite (bool_decide_eq_true_2 _ Hvd).
  cbn -[get_video_files loop length].
  rewrite get_video_files_eq in *. cbn -[loop length] in *.
  destruct (FS.sorted _) as [|v vs]; [done|].
  cbn -[loop length]. rewrite <- !app_assoc. cbn -[loop length].
  match goal with |- context [loop ?a ?b ?c ?d ?e ?f ?g ?h] =>
    destruct (loop a b c d e f g h) as [c1 w1] end.
  unfold summary, print. cbn. rewrite <- ?app_assoc. reflexivity.
Qed.

Lemma process_videos_no_dir vd force w :
  ¬ FS.present (files w) vd →
  process_videos ffmpeg vd force w =
  (tt, World (files w) (stdout w ++ [DirNotFound vd; PleaseCreate]) (invocations w)).
Proof.
  intros Hvd. unfold process_videos, mbind, M_bind, path_exists.
  rewrite (bool_decide_eq_false_2 _ Hvd). unfold print. cbn.
  rewrite <- ?app_assoc. reflexivity.
Qed.

Lemma process_videos_no_videos vd force w :
  FS.present (files w) vd →
  (get_video_files vd w).1 = [] →
  process_videos ffmpeg vd force w =
  (tt, World (files w) (stdout w ++ [NoVideos vd]) (invocations w)).
Proof.
  intros Hvd Hvs. unfold process_videos, mbind, M_bind, path_exists.
  rewrite (bool_decide_eq_true_2 _ Hvd). cbn -[get_video_files].
  rewrite get_video_files_eq in *. cbn in Hvs. rewrite Hvs. reflexivity.
Qed.

End ScriptFacts.

(* ===================================================================== *)
(** * The idempotency check, and what a run does to the files             *)
(* ===================================================================== *)

Section CheckFacts.
Import NameFacts FSFacts.

(** What [check] answers, by the state of the frame directory. *)
Lemma check_cases s v vd :
  let d := frames_dir vd v in
  (check s v vd = (false, 0) ∧
     (¬ FS.present s d ∨ (FS.present s d ∧ FS.entries s d Name.is_frame_name 0)))
  ∨ (∃ n, check s v vd = (true, S n) ∧ FS.present s d ∧
          FS.entries s d Name.is_frame_name (S n)).
Proof.
  intros d. unfold check. fold d.
  destruct (decide (FS.present s d)) as [Hd | Hd].
  - pose proof (entries_frames s d Hd) as He.
    destruct (FS.glob s d "frame_*.jpg") as [|p l]; simpl in *.
    + left. split; [done|]. by right.
    + right. by exists (length l).
  - left. rewrite (glob_absent _ _ _ Hd). split; [done | by left].
Qed.

Lemma check_true_iff s v vd :
  (check s v vd).1 = true ↔
  FS.present s (frames_dir vd v) ∧
  ∃ e, frames_dir vd v / e ∈ s ∧ Name.is_frame_name e.
Proof.
  destruct (check_cases s v vd) as [[-> H] | (n & -> & Hd & l & Hl & Hin & Hn)];
    simpl.
  - split; [done|]. intros [Hd [e He]].
    destruct H as [H | [_ (l & _ & Hin & Hn)]]; [done|].
    apply Hin in He. destruct l; [by apply elem_of_nil in He | done].
  - split; [intros _ | done]. split; [done|].
    destruct l as [|e l]; [done|]. exists e. apply Hin. by left.
Qed.

End CheckFacts.

Section RunFacts.
Import NameFacts FSFacts OrderFacts.

Variable ffmpeg : nat → path → tool_run.

Lemma printed_summary_app out c total :
  printed_summary (out ++ summary c total) = Some (c, total).
Proof.
  unfold printed_summary, summary. rewrite reverse_app. simpl.
  by destruct c.
Qed.


Lemma frames_dir_eq vd v : frames_dir vd v = vd ++ [stem_of v; "all_frames"].
Proof. unfold frames_dir, child. by rewrite <- app_assoc. Qed.

Lemma release_dir_eq vd v : release_dir vd v = vd ++ [stem_of v; "release_frames"].
Proof. unfold release_dir, child. by rewrite <- app_assoc. Qed.

Lemma elem_of_files_after_attempt vd v n s q :
  q ∈ files_after_attempt vd v n s → q ∈ s ∨ touched vd v q.
Proof.
  unfold files_after_attempt, touched.
  rewrite elem_of_write_frames, !elem_of_mkdir_p.
  intros [[[[H | H] | H] | H] | (k & _ & H)]; eauto 6.
Qed.

Lemma files_after_attempt_mono vd v n s : s ⊆ files_after_attempt vd v n s.
Proof.
  intros q Hq. unfold files_after_attempt.
  rewrite elem_of_write_frames, !elem_of_mkdir_p. eauto.
Qed.

Lemma files_after_attempt_dir vd v n s :
  FS.present (files_after_attempt vd v n s) (frames_dir vd v).
Proof.
  unfold files_after_attempt.
  eapply present_mono; [|apply mkdir_p_self].
  unfold FS.write_frames. apply union_subseteq_l.
Qed.

Lemma files_after_attempt_frame vd v n s k :
  1 ≤ k ≤ n →
  frames_dir vd v / Name.frame_name k ∈ files_after_attempt vd v n s.
Proof.
  intros Hk. unfold files_after_attempt. apply elem_of_write_frames.
  right. by exists k.
Qed.


(** A video name is never created next to the videos, as long as no stem
    is itself a video name. *)
Lemma touched_not_entry vd v n :
  n ≠ stem_of v → ¬ touched vd v (vd / n).
Proof.
  intros Hn. unfold touched. rewrite frames_dir_eq, release_dir_eq.
  unfold child.
  intros [(_ & r & Hr) | [(_ & r & Hr) | (k & Hk)]];
    rewrite <- ?app_assoc in *; simplify_list_eq; done.
Qed.

Lemma check_agree s s' v vd :
  (FS.present s (frames_dir vd v) ↔ FS.present s' (frames_dir vd v)) →
  (∀ n, frames_dir vd v / n ∈ s ↔ frames_dir vd v / n ∈ s') →
  check s v vd = check s' v vd.
Proof.
  intros Hd Hn. unfold check.
  pose proof (glob_length_agree s s' _ "frame_*.jpg" Hd Hn) as Hlen.
  destruct (FS.glob s _ _), (FS.glob s' _ _); simpl in *; congruence.
Qed.


Lemma check_mono s s' v vd :
  s ⊆ s' → (check s v vd).1 = true → (check s' v vd).1 = true.
Proof.
  intros Hs. rewrite !check_true_iff. intros (Hd & e & He & Hf).
  split; [by eapply present_mono|]. exists e. split; [by apply Hs | done].
Qed.

(** The files after one pass through the loop body. *)
Lemma loop_body_files vd force total i v c w :
  let w' := (loop_body ffmpeg vd force total i v c w).2 in
  files w' = files w
  ∨ files w' = files_after_attempt vd v
                 (frames_written (ffmpeg (length (invocations w)) v)) (files w).
Proof.
  destruct (loop_body_cases ffmpeg vd force total i v c w)
    as [(_ & _ & ->) | (_ & tail & -> & _)]; simpl; [by left | by right].
Qed.

Lemma loop_files_mono vd force total i vs c w :
  files w ⊆ files (loop ffmpeg vd force total i vs c w).2.
Proof.
  revert i c w. induction vs as [|v vs IH]; intros i c w; simpl; [done|].
  unfold mbind, M_bind.
  pose proof (loop_body_files vd force total i v c w) as Hstep.
  destruct (loop_body ffmpeg vd force total i v c w) as [c1 w1].
  simpl in Hstep. etrans; [|apply IH].
  destruct Hstep as [-> | ->]; [done | apply files_after_attempt_mono].
Qed.

Lemma loop_files_bound vd force total i vs c w q :
  q ∈ files (loop ffmpeg vd force total i vs c w).2 →
  q ∈ files w ∨ ∃ v, v ∈ vs ∧ touched vd v q.
Proof.
  revert i c w. induction vs as [|v vs IH]; intros i c w; simpl; [by left|].
  unfold mbind, M_bind.
  pose proof (loop_body_files vd force total i v c w) as Hstep.
  destruct (loop_body ffmpeg vd force total i v c w) as [c1 w1].
  simpl in Hstep. intros [Hq | (v' & Hv' & Hq)]%IH.
  - destruct Hstep as [Hw1 | Hw1]; rewrite Hw1 in Hq; [by left|].
    apply elem_of_files_after_attempt in Hq as [Hq | Hq]; [by left | right].
    exists v. split; [apply elem_of_cons; by left | done].
  - right. exists v'. split; [apply elem_of_cons; by right | done].
Qed.


(** Without [--force], when every video that is left has frames on disk,
    the loop skips them all and changes nothing. *)
Lemma loop_all_skipped vd total i vs c w :
  (∀ v, v ∈ vs → (check (files w) v vd).1 = true) →
  let r := loop ffmpeg vd false total i vs c w in
  files r.2 = files w ∧ invocations r.2 = invocations w
  ∧ r.1 = Counters (processed_count c) (skipped_count c + length vs)
            (failed_count c).
Proof.
  revert i c w. induction vs as [|v vs IH]; intros i c w Hall; simpl.
  - unfold mret, M_ret; simpl. rewrite Nat.add_0_r. by destruct c.
  - unfold mbind, M_bind.
    rewrite loop_body_skip by (apply Hall, elem_of_cons; by left).
    match goal with |- context [loop _ _ _ _ _ _ ?c1 ?w1] =>
      destruct (IH (S i) c1 w1) as (H1 & H2 & H3) end.
    { intros v' Hv'. apply Hall, elem_of_cons. by right. }
    simpl in *. rewrite H1, H2, H3. repeat split. f_equal. lia.
Qed.


(** When every run of the tool writes at least one frame, every video the
    loop has gone through has frames on disk afterwards. *)
Lemma loop_leaves_frames vd force total i vs c w :
  (∀ k v, 1 ≤ frames_written (ffmpeg k v)) →
  ∀ v, v ∈ vs →
    (check (files (loop ffmpeg vd force total i vs c w).2) v vd).1 = true.
Proof.
  intros Hwrites. revert i c w.
  induction vs as [|v0 vs IH]; intros i c w v Hv; [by apply elem_of_nil in Hv|].
  simpl. unfold mbind, M_bind.
  apply elem_of_cons in Hv as [-> | Hv].
  - destruct (loop_body_cases ffmpeg vd force total i v0 c w)
      as [(Hc & _ & ->) | (_ & tail & -> & _)].
    + eapply check_mono; [apply loop_files_mono | done].
    + eapply check_mono; [apply loop_files_mono|]. simpl.
      apply check_true_iff. split; [apply files_after_attempt_dir|].
      exists (Name.frame_name 1). split; [|apply frame_name_is_frame].
      apply files_after_attempt_frame.
      specialize (Hwrites (length (invocations w)) v0). lia.
  - destruct (loop_body ffmpeg vd force total i v0 c w) as [c1 w1].
    by apply IH.
Qed.


(** A run that only creates what attempts on the videos of [vs] may
    create finds the same videos afterwards, as long as no stem is itself
    the name of a video. *)
Lemma discovery_stable vd w s1 :
  FS.present (files w) vd →
  files w ⊆ s1 →
  (∀ q, q ∈ s1 →
        q ∈ files w ∨ ∃ v, v ∈ (get_video_files vd w).1 ∧ touched vd v q) →
  (∀ v, v ∈ (get_video_files vd w).1 →
        ¬ Name.ends_in ".mp4" (stem_of v) ∧ ¬ Name.ends_in ".MP4" (stem_of v)) →
  FS.sorted (FS.glob s1 vd "*.mp4" ++ FS.glob s1 vd "*.MP4")
  = (get_video_files vd w).1.
Proof.
  intros Hvd Hsub Hbound Hstems. rewrite get_video_files_eq. simpl.
  assert (∀ pat n,
            (pat = "*.mp4" ∨ pat = "*.MP4") → Name.fnmatch pat n = true →
            vd / n ∈ s1 ↔ vd / n ∈ files w) as Hentries.
  { intros pat n Hpat Hm. split; [|apply Hsub].
    intros [Hq | (v & Hv & Hq)]%Hbound; [done|]. exfalso.
    apply (touched_not_entry vd v n); [|done]. intros ->.
    destruct (Hstems v Hv) as [Hl Hu].
    destruct Hpat as [-> | ->];
      [by apply Hl, fnmatch_mp4 | by apply Hu, fnmatch_MP4]. }
  assert (FS.present s1 vd ↔ FS.present (files w) vd) as Hpresent.
  { split; [done | by apply present_mono]. }
  apply sorted_perm_eq, Permutation_app; apply glob_Permutation; try done.
  - intros n Hn. apply (Hentries "*.mp4"); [by left | done].
  - intros n Hn. apply (Hentries "*.MP4"); [by right | done].
Qed.

End RunFacts.

(* ===================================================================== *)
(** * The check, the extraction call, the loop and [main]                 *)
(* ===================================================================== *)

(** C3. The idempotency check leaves the world as it found it; it answers
    "not processed", with count 0, when the frame directory of the video is
    absent or holds no frame file, and "processed", with the number of frame
    files there, as soon as the directory holds one. *)
Theorem C3_idempotency_check (video_path videos_dir : path) (w : world) :
  let d := videos_dir / stem_of video_path / "all_frames" in
  let r := is_already_processed video_path videos_dir w in
  r.2 = w
  ∧ (¬ FS.present (files w) d → r.1 = (false, 0))
  ∧ (FS.present (files w) d →
     (∀ e, d / e ∈ files w → ¬ Name.is_frame_name e) →
     r.1 = (false, 0))
  ∧ (FS.present (files w) d →
     ∀ e, d / e ∈ files w → Name.is_frame_name e →
     ∃ n, r.1 = (true, n) ∧
          FS.entries (files w) d Name.is_frame_name n).
Proof.
  intros d r. subst r. rewrite is_already_processed_eq. simpl.
  split; [done|].
  destruct (check_cases (files w) video_path videos_dir)
    as [[-> H] | (n & -> & Hd & Hn)].
  - split; [done|]. split; [done|]. intros Hd e He Hf.
    destruct H as [H | [_ (l & _ & Hin & Hl)]]; [done|].
    assert (e ∈ l) as Hel by by apply Hin.
    destruct l; [by apply elem_of_nil in Hel | done].
  - split; [done|]. split; [|by eauto].
    intros _ Hnone. destruct Hn as (l & _ & Hin & Hl).
    destruct l as [|e l]; [done|].
    destruct (Hin e) as [[He Hf] _]; [by left|]. by destruct (Hnone e).
Qed.

(** The check on a directory that exists but is empty, and on the same
    directory once it holds a frame. *)
Lemma C3_idempotency_check_witness :
  (is_already_processed ["videos"; "game1.mp4"] ["videos"]
     (World {[ ["videos"]; ["videos"; "game1"]; ["videos"; "game1"; "all_frames"] ]}
        [] [])).1 = (false, 0)
  ∧ ∃ n,
      (is_already_processed ["videos"; "game1.mp4"] ["videos"]
         (World {[ ["videos"]; ["videos"; "game1"];
                   ["videos"; "game1"; "all_frames"];
                   ["videos"; "game1"; "all_frames"; "frame_0001.jpg"] ]}
            [] [])).1 = (true, n)
      ∧ FS.entries
          {[ ["videos"]; ["videos"; "game1"];
             ["videos"; "game1"; "all_frames"];
             ["videos"; "game1"; "all_frames"; "frame_0001.jpg"] ]}
          ["videos"; "game1"; "all_frames"] Name.is_frame_name n.
Proof.
  split.
  - destruct (C3_idempotency_check ["videos"; "game1.mp4"] ["videos"]
      (World {[ ["videos"]; ["videos"; "game1"];
                ["videos"; "game1"; "all_frames"] ]} [] []))
      as (_ & _ & Hempty & _).
    apply Hempty.
    + right. vm_compute. reflexivity.
    + intros e He. exfalso. revert He. simpl.
      rewrite <- FSFacts.elem_of_listdir. vm_compute. apply elem_of_nil.
  - destruct (C3_idempotency_check ["videos"; "game1.mp4"] ["videos"]
      (World {[ ["videos"]; ["videos"; "game1"];
                ["videos"; "game1"; "all_frames"];
                ["videos"; "game1"; "all_frames"; "frame_0001.jpg"] ]}
         [] []))
      as (_ & _ & _ & Hframe).
    apply (Hframe ltac:(right; vm_compute; reflexivity) "frame_0001.jpg").
    + vm_compute. reflexivity.
    + by exists "0001".
Defined.

(** C10. The check never answers "processed" with a count of zero: its
    answer is [(False, 0)], or [(True, n)] with [n >= 1] the number of
    frame files in the frame directory. *)
Theorem C10_processed_count_positive (video_path videos_dir : path) (w : world) :
  let d := videos_dir / stem_of video_path / "all_frames" in
  let r := (is_already_processed video_path videos_dir w).1 in
  r = (false, 0)
  ∨ ∃ n, r = (true, n) ∧ 1 ≤ n ∧
         FS.entries (files w) d Name.is_frame_name n.
Proof.
  intros d r. subst r. rewrite is_already_processed_eq. simpl.
  destruct (check_cases (files w) video_path videos_dir)
    as [[-> _] | (n & -> & _ & Hn)]; [by left | right].
  exists (S n). split; [done|]. split; [lia | done].
Qed.

(** C7. When the tool exits with status 0, the frame count [extract_frames]
    returns is the number of frame files the output directory holds once
    the tool has finished: it comes from listing the directory, not from
    anything the tool reports. *)
Theorem C7_success_recounts_output_directory
    (ffmpeg : nat → path → tool_run) (video_path output_dir : path) (w : world) :
  status (ffmpeg (length (invocations w)) video_path) = Exit0 →
  ∃ n,
    (extract_frames ffmpeg video_path output_dir w).1 = (true, n, None)
    ∧ FS.entries (files (extract_frames ffmpeg video_path output_dir w).2)
        output_dir Name.is_frame_name n.
Proof.
  intros Hst. rewrite extract_frames_eq. cbn zeta. rewrite Hst. simpl.
  eexists. split; [reflexivity|].
  apply FSFacts.entries_frames.
  apply (FSFacts.present_mono (FS.mkdir_p output_dir (files w)));
    [|apply FSFacts.mkdir_p_self].
  unfold FS.write_frames. apply union_subseteq_l.
Qed.

(** A successful extraction into a directory that still holds a frame of an
    earlier, longer run: the tool writes two frames, the count is three. *)
Lemma C7_success_recounts_output_directory_witness :
  ∃ n,
    (extract_frames (λ _ _, ToolRun Exit0 "frame=    2 fps=0.0" 2)
       ["videos"; "game1.mp4"] ["videos"; "game1"; "all_frames"]
       (World {[ ["videos"]; ["videos"; "game1"];
                 ["videos"; "game1"; "all_frames"];
                 ["videos"; "game1"; "all_frames"; "frame_0009.jpg"] ]}
          [] [])).1 = (true, n, None)
    ∧ n = 3.
Proof.
  destruct (C7_success_recounts_output_directory
              (λ _ _, ToolRun Exit0 "frame=    2 fps=0.0" 2)
              ["videos"; "game1.mp4"] ["videos"; "game1"; "all_frames"]
              (World {[ ["videos"]; ["videos"; "game1"];
                        ["videos"; "game1"; "all_frames"];
                        ["videos"; "game1"; "all_frames"; "frame_0009.jpg"] ]}
                 [] []) eq_refl) as (n & Hr & _).
  exists n. split; [exact Hr|].
  vm_compute in Hr. by injection Hr as <-.
Defined.

(** C9. When the tool times out or exits with a non-zero status,
    [extract_frames] returns failure, a frame count of 0 and a non-empty
    message, whatever the tool had written: the frames it wrote are in the
    output directory and are not counted. *)
Theorem C9_failure_reports_zero_frames
    (ffmpeg : nat → path → tool_run) (video_path output_dir : path) (w : world) :
  status (ffmpeg (length (invocations w)) video_path) ≠ Exit0 →
  ∃ msg,
    (extract_frames ffmpeg video_path output_dir w).1 = (false, 0, Some msg)
    ∧ msg ≠ EmptyString
    ∧ ∀ k, 1 ≤ k ≤ frames_written (ffmpeg (length (invocations w)) video_path) →
           output_dir / Name.frame_name k
             ∈ files (extract_frames ffmpeg video_path output_dir w).2.
Proof.
  intros Hst. rewrite extract_frames_eq. cbn zeta.
  destruct (status (ffmpeg (length (invocations w)) video_path)) as [|stderr|];
    [done| |]; simpl.
  - exists (error_msg_of stderr). split; [done|]. split; [done|].
    intros k Hk. apply FSFacts.elem_of_write_frames. right. by exists k.
  - exists timeout_msg. split; [done|]. split; [done|].
    intros k Hk. apply FSFacts.elem_of_write_frames. right. by exists k.
Qed.

(** A timeout after three frames were written. *)
Lemma C9_failure_reports_zero_frames_witness :
  ∃ msg,
    (extract_frames (λ _ _, ToolRun TimedOut EmptyString 3)
       ["videos"; "long.mp4"] ["videos"; "long"; "all_frames"]
       (World {[ ["videos"]; ["videos"; "long.mp4"] ]} [] [])).1
    = (false, 0, Some msg)
    ∧ ["videos"; "long"; "all_frames"; "frame_0003.jpg"]
        ∈ files (extract_frames (λ _ _, ToolRun TimedOut EmptyString 3)
                   ["videos"; "long.mp4"] ["videos"; "long"; "all_frames"]
                   (World {[ ["videos"]; ["videos"; "long.mp4"] ]} [] [])).2.
Proof.
  destruct (C9_failure_reports_zero_frames (λ _ _, ToolRun TimedOut EmptyString 3)
              ["videos"; "long.mp4"] ["videos"; "long"; "all_frames"]
              (World {[ ["videos"]; ["videos"; "long.mp4"] ]} [] []))
    as (msg & Hr & _ & Hfiles).
  - simpl. discriminate.
  - exists msg. split; [exact Hr|]. apply (Hfiles 3). simpl. lia.
Defined.





(** [main], case by case. *)
Lemma main_eq (ffmpeg : nat → path → tool_run) (home : path)
    (ffmpeg_version : option string) (a : args) (w : world) :
  let continue (vd : path) : nat * world :=
    match ffmpeg_version with
    | Some version =>
        (0, (process_videos ffmpeg vd (force_arg a)
               (World (files w)
                  (stdout w ++ [VideosDirectory vd; FFmpegFound version])
                  (invocations w))).2)
    | None =>
        (1, World (files w)
              (stdout w ++ [VideosDirectory vd; FFmpegNotFound; BrewInstall])
              (invocations w))
    end in
  main ffmpeg home ffmpeg_version a w =
  if override_given a then continue (Path (default EmptyString (videos_dir_arg a)))
  else if decide (FS.present (files w) (home / "Desktop"))
       then continue (home / "Desktop" / "baseball_vids")
       else (1, World (files w)
                  (stdout w ++ [DesktopMissing (home / "Desktop")])
                  (invocations w)).
Proof.
  cbn zeta. unfold main, get_desktop_path, check_ffmpeg_installed.
  unfold mbind, M_bind, path_exists.
  destruct (override_given a).
  - destruct ffmpeg_version as [version|]; unfold print, mret, M_ret;
      cbn -[process_videos]; rewrite <- ?app_assoc; [|reflexivity].
    by destruct (process_videos _ _ _ _).
  - destruct (decide (FS.present (files w) (home / "Desktop"))) as [Hd | Hd].
    + rewrite (bool_decide_eq_true_2 _ Hd).
      destruct ffmpeg_version as [version|]; unfold print, mret, M_ret;
        cbn -[process_videos]; rewrite <- ?app_assoc; [|reflexivity].
      by destruct (process_videos _ _ _ _).
    + by rewrite (bool_decide_eq_false_2 _ Hd).
Qed.



(* ===================================================================== *)
(** * Discovery                                                           *)
(* ===================================================================== *)

(** C4, as stated, fails: an extension in mixed case matches [.mp4] without
    regard to case, and the file is not found. *)
Lemma C4_mixed_case_extension_not_found :
  ¬ (∀ n,
       ["videos"] / n ∈ files (World {[ ["videos"]; ["videos"; "clip.Mp4"] ]} [] []) →
       Name.has_mp4_extension_ignoring_case n →
       ["videos"] / n
         ∈ (get_video_files ["videos"]
              (World {[ ["videos"]; ["videos"; "clip.Mp4"] ]} [] [])).1).
Proof.
  intros H. specialize (H "clip.Mp4").
  assert ((get_video_files ["videos"]
             (World {[ ["videos"]; ["videos"; "clip.Mp4"] ]} [] [])).1 = [])
    as Hnone by (vm_compute; reflexivity).
  rewrite Hnone in H. eapply elem_of_nil, H.
  - vm_compute. reflexivity.
  - vm_compute. reflexivity.
Qed.

(** C4, amended. Discovery changes nothing; it returns, each once and in
    increasing order of their paths, exactly the entries of the directory
    whose name ends in [.mp4] or in [.MP4]; from a directory holding
    game1.mp4, game2.MP4 and notes.txt it returns game1.mp4 and game2.MP4,
    in this order. *)
Theorem C4_discovery (videos_dir : path) (w : world) :
  let r := get_video_files videos_dir w in
  r.2 = w
  ∧ (∀ p, p ∈ r.1 ↔
          FS.present (files w) videos_dir ∧
          ∃ n, p = videos_dir / n ∧ p ∈ files w ∧
               (Name.ends_in ".mp4" n ∨ Name.ends_in ".MP4" n))
  ∧ NoDup r.1
  ∧ StronglySorted FS.path_le r.1
  ∧ (get_video_files ["videos"]
       (World {[ ["videos"]; ["videos"; "game1.mp4"]; ["videos"; "game2.MP4"];
                 ["videos"; "notes.txt"] ]} [] [])).1
    = [ ["videos"; "game1.mp4"]; ["videos"; "game2.MP4"] ].
Proof.
  intros r. subst r. rewrite get_video_files_eq. simpl.
  split; [done|]. split; [|split; [|split]].
  - intros p. rewrite OrderFacts.elem_of_sorted, elem_of_app, !FSFacts.elem_of_glob.
    setoid_rewrite <- NameFacts.fnmatch_mp4.
    setoid_rewrite <- NameFacts.fnmatch_MP4. split.
    + intros [(Hd & n & -> & Hn & Hm) | (Hd & n & -> & Hn & Hm)];
        (split; [done|]); exists n; eauto.
    + intros (Hd & n & -> & Hn & [Hm | Hm]); [left | right];
        (split; [done|]); exists n; eauto.
  - rewrite OrderFacts.sorted_Permutation. apply NoDup_app.
    split; [apply FSFacts.NoDup_glob|]. split; [|apply FSFacts.NoDup_glob].
    intros p Hl Hu.
    apply FSFacts.elem_of_glob in Hl as (_ & n & -> & _ & Hn).
    apply FSFacts.elem_of_glob in Hu as (_ & m & Heq & _ & Hm).
    apply (inj _) in Heq as <-.
    apply NameFacts.fnmatch_mp4 in Hn. apply NameFacts.fnmatch_MP4 in Hm.
    by apply (NameFacts.mp4_MP4_disjoint n).
  - apply OrderFacts.sorted_StronglySorted.
  - vm_compute. reflexivity.
Qed.

(** A directory with one video and a text file: the video is found. *)
Lemma C4_discovery_witness :
  ["videos"; "game1.mp4"]
    ∈ (get_video_files ["videos"]
         (World {[ ["videos"]; ["videos"; "game1.mp4"]; ["videos"; "notes.txt"] ]}
            [] [])).1.
Proof.
  destruct (C4_discovery ["videos"]
              (World {[ ["videos"]; ["videos"; "game1.mp4"];
                        ["videos"; "notes.txt"] ]} [] []))
    as (_ & Hin & _).
  apply Hin. split; [right; vm_compute; reflexivity|].
  exists "game1.mp4". split; [reflexivity|].
  split; [vm_compute; reflexivity|]. left. by exists "game1".
Defined.

(* ===================================================================== *)
(** * Skipping, forcing, and running twice                                *)
(* ===================================================================== *)




(** C8, as stated, fails: the extraction that failed in the first run is
    attempted again in the second, and nothing is skipped. *)
Lemma C8_failed_video_is_retried :
  ¬ (invocations
       (process_videos failing_tool ["videos"] false
          (process_videos failing_tool ["videos"] false unreadable_world).2).2
     = invocations (process_videos failing_tool ["videos"] false unreadable_world).2
     ∧ ∃ c,
         printed_summary
           (stdout
              (process_videos failing_tool ["videos"] false
                 (process_videos failing_tool ["videos"] false unreadable_world).2).2)
         = Some (c, 1)
         ∧ skipped_count c = 1).
Proof.
  intros [Hinv _]. vm_compute in Hinv. discriminate Hinv.
Qed.

(** When every run of the tool writes at least one frame, every video found
    has frames on disk after a run. *)
Lemma first_run_leaves_frames
    (ffmpeg : nat → path → tool_run) (videos_dir : path) (force : bool)
    (w : world) :
  (∀ k v, 1 ≤ frames_written (ffmpeg k v)) →
  ∀ v, v ∈ (get_video_files videos_dir w).1 →
    (is_already_processed v videos_dir
       (process_videos ffmpeg videos_dir force w).2).1.1 = true.
Proof.
  intros Hwrites v Hv. rewrite is_already_processed_eq. simpl.
  assert (FS.present (files w) videos_dir) as Hvd.
  { rewrite get_video_files_eq in Hv. simpl in Hv.
    apply OrderFacts.elem_of_sorted, elem_of_app in Hv.
    by destruct Hv as [[? _]%FSFacts.elem_of_glob | [? _]%FSFacts.elem_of_glob]. }
  assert ((get_video_files videos_dir w).1 ≠ []) as Hvs.
  { intros Hnil. rewrite Hnil in Hv. by apply elem_of_nil in Hv. }
  rewrite (process_videos_run ffmpeg videos_dir force w Hvd Hvs). simpl.
  by apply loop_leaves_frames.
Qed.

(** C8, amended. When after the first run every video found has at least one
    frame file in its frame directory, and no video found has a stem that is
    itself the name of a video, a second run without [--force], nothing
    having changed in between, finds the same videos, skips every one of
    them, runs the tool on none and leaves the files as they are. *)
Theorem C8_second_run_skips_everything
    (ffmpeg : nat → path → tool_run) (videos_dir : path) (w : world) :
  let vs := (get_video_files videos_dir w).1 in
  let w1 := (process_videos ffmpeg videos_dir false w).2 in
  let w2 := (process_videos ffmpeg videos_dir false w1).2 in
  (∀ v, v ∈ vs → (is_already_processed v videos_dir w1).1.1 = true) →
  (∀ v, v ∈ vs →
        ¬ Name.ends_in ".mp4" (stem_of v) ∧
        ¬ Name.ends_in ".MP4" (stem_of v)) →
  (get_video_files videos_dir w1).1 = vs
  ∧ files w2 = files w1
  ∧ invocations w2 = invocations w1
  ∧ (FS.present (files w) videos_dir → vs ≠ [] →
     printed_summary (stdout w2) = Some (Counters 0 (length vs) 0, length vs)).
Proof.
  intros vs w1 w2 Hleft Hstems.
  destruct (decide (FS.present (files w) videos_dir)) as [Hvd | Hvd].
  2: { (* the directory is missing: both runs only print *)
    subst w2 w1 vs. rewrite (process_videos_no_dir ffmpeg _ _ _ Hvd).
    cbn [snd]. rewrite process_videos_no_dir by done.
    by rewrite !get_video_files_eq. }
  destruct (decide (vs = [])) as [Hvs | Hvs].
  { (* no video: both runs only print *)
    subst w2 w1. rewrite (process_videos_no_videos ffmpeg _ _ _ Hvd Hvs).
    cbn [snd].
    assert ((get_video_files videos_dir
               (World (files w) (stdout w ++ [NoVideos videos_dir]) (invocations w))).1
            = vs) as Hsame by (subst vs; by rewrite !get_video_files_eq).
    rewrite process_videos_no_videos by (done || congruence).
    split; [done|]. split; [done|]. split; [done|]. by intros _ ?. }
  (* the first run goes through the loop *)
  pose proof (process_videos_run ffmpeg videos_dir false w Hvd Hvs) as Hrun1.
  cbn zeta in Hrun1. fold vs in Hrun1.
  set (N := length vs) in *.
  set (start := World (files w) (stdout w ++ [Rule; Found N; Rule]) (invocations w))
    in Hrun1.
  set (r1 := loop ffmpeg videos_dir false N 1 vs (Counters 0 0 0) start) in Hrun1.
  assert (w1 = World (files r1.2) (stdout r1.2 ++ summary r1.1 N) (invocations r1.2))
    as Hw1 by (subst w1; by rewrite Hrun1).
  assert (files w ⊆ files w1) as Hsub.
  { rewrite Hw1. simpl.
    apply (loop_files_mono ffmpeg videos_dir false N 1 vs (Counters 0 0 0) start). }
  assert (FS.present (files w1) videos_dir) as Hvd1
    by by eapply FSFacts.present_mono.
  assert ((get_video_files videos_dir w1).1 = vs) as Hvs1.
  { rewrite get_video_files_eq. simpl.
    apply (discovery_stable videos_dir w (files w1) Hvd Hsub); [|done].
    intros q Hq. rewrite Hw1 in Hq. simpl in Hq.
    by apply (loop_files_bound ffmpeg videos_dir false N 1 vs (Counters 0 0 0) start). }
  assert (∀ v, v ∈ vs → (check (files w1) v videos_dir).1 = true) as Hframes.
  { intros v Hv. specialize (Hleft v Hv).
    by rewrite is_already_processed_eq in Hleft. }
  (* the second run skips every video *)
  assert ((get_video_files videos_dir w1).1 ≠ []) as Hne1 by congruence.
  pose proof (process_videos_run ffmpeg videos_dir false w1 Hvd1 Hne1) as Hrun2.
  cbn zeta in Hrun2. rewrite Hvs1 in Hrun2. fold N in Hrun2.
  set (start1 := World (files w1) (stdout w1 ++ [Rule; Found N; Rule])
                   (invocations w1)) in Hrun2.
  destruct (loop_all_skipped ffmpeg videos_dir N 1 vs (Counters 0 0 0) start1 Hframes)
    as (Hfiles & Hinv & Hc).
  simpl in Hfiles, Hinv, Hc.
  subst w2. rewrite Hrun2. simpl. rewrite Hfiles, Hinv, Hc.
  split; [done|]. split; [done|]. split; [done|].
  intros _ _. apply printed_summary_app.
Qed.

(** Two videos, nothing processed, a tool that writes one frame each time:
    the second run skips both. *)
Lemma C8_second_run_skips_everything_witness :
  printed_summary
    (stdout
       (process_videos one_frame_tool ["videos"] false
          (process_videos one_frame_tool ["videos"] false
             (World {[ ["videos"]; ["videos"; "a.mp4"]; ["videos"; "b.MP4"] ]}
                [] [])).2).2)
  = Some (Counters 0 2 0, 2).
Proof.
  destruct (C8_second_run_skips_everything one_frame_tool ["videos"]
              (World {[ ["videos"]; ["videos"; "a.mp4"]; ["videos"; "b.MP4"] ]}
                 [] []))
    as (_ & _ & _ & Hsum).
  - intros v Hv. vm_compute in Hv.
    apply elem_of_cons in Hv as [-> | Hv];
      [|apply elem_of_cons in Hv as [-> | Hv]; [|by apply elem_of_nil in Hv]];
      vm_compute; reflexivity.
  - intros v Hv. vm_compute in Hv.
    apply elem_of_cons in Hv as [-> | Hv];
      [|apply elem_of_cons in Hv as [-> | Hv]; [|by apply elem_of_nil in Hv]].
    + rewrite <- NameFacts.fnmatch_mp4, <- NameFacts.fnmatch_MP4.
      vm_compute. split; discriminate.
    + rewrite <- NameFacts.fnmatch_mp4, <- NameFacts.fnmatch_MP4.
      vm_compute. split; discriminate.
  - apply Hsum.
    + right. vm_compute. reflexivity.
    + vm_compute. discriminate.
Defined.

(* ===================================================================== *)
(** * Stems and frame names                                               *)
(* ===================================================================== *)

Module StringFacts.
Import Name NameFacts.

Lemma length_append s t :
  String.length (s +:+ t) = String.length s + String.length t.
Proof. induction s as [|c s IH]; unfold_append; simpl; [done | by rewrite IH]. Qed.

Lemma append_inj_r s s' t : s +:+ t = s' +:+ t → s = s'.
Proof.
  revert s'. induction s as [|c s IH]; intros [|c' s'] H; unfold_append.
  - done.
  - apply (f_equal String.length) in H. simpl in H.
    rewrite length_append in H. lia.
  - apply (f_equal String.length) in H. simpl in H.
    rewrite length_append in H. lia.
  - injection H as -> H. f_equal. by apply IH.
Qed.

Lemma rfind_append c s t i :
  rfind c t = Some i → rfind c (s +:+ t) = Some (String.length s + i).
Proof.
  intros Ht. induction s as [|d s IH]; unfold_append; simpl; [done|].
  by rewrite IH.
Qed.

Lemma substring_append s t : String.substring 0 (String.length s) (s +:+ t) = s.
Proof.
  induction s as [|c s IH]; unfold_append; simpl; [by destruct t | by rewrite IH].
Qed.

(** [stem] removes an extension of at least one character that holds no
    other dot, from a name that does not start with it. *)
Lemma stem_append base ext' :
  base ≠ EmptyString →
  ext' ≠ EmptyString →
  rfind "."%char ext' = None →
  stem (base +:+ String "."%char ext') = base.
Proof.
  intros Hbase Hext Hdot. unfold stem.
  assert (rfind "."%char (String "."%char ext') = Some 0) as H0
    by (simpl; by rewrite Hdot).
  rewrite (rfind_append _ base _ 0 H0), Nat.add_0_r, length_append. simpl.
  assert (0 < String.length base) by (destruct base; [done | simpl; lia]).
  assert (0 < String.length ext') by (destruct ext'; [done | simpl; lia]).
  rewrite (proj2 (Nat.ltb_lt _ _)) by lia.
  rewrite (proj2 (Nat.ltb_lt _ _)) by lia.
  simpl. apply substring_append.
Qed.

Lemma stem_mp4 base : base ≠ EmptyString → stem (base +:+ ".mp4") = base.
Proof. intros H. by apply (stem_append base "mp4"). Qed.

Lemma stem_MP4 base : base ≠ EmptyString → stem (base +:+ ".MP4") = base.
Proof. intros H. by apply (stem_append base "MP4"). Qed.

Lemma decode_zeros n s :
  Nat.of_uint <$> NilEmpty.uint_of_string (zeros n +:+ s)
  = Nat.of_uint <$> NilEmpty.uint_of_string s.
Proof.
  induction n as [|n IH]; [done|]. simpl. unfold_append. simpl.
  destruct (NilEmpty.uint_of_string (zeros n +:+ s)) as [d|] eqn:Hd;
    destruct (NilEmpty.uint_of_string s) as [d'|] eqn:Hd'; simpl in *;
    done.
Qed.

Lemma decode_uint d :
  Nat.of_uint <$> NilEmpty.uint_of_string (NilZero.string_of_uint d)
  = Some (Nat.of_uint d).
Proof.
  destruct d; [reflexivity|..];
    unfold NilZero.string_of_uint; by rewrite NilEmpty.usu.
Qed.

Lemma decode_decimal k :
  Nat.of_uint <$> NilEmpty.uint_of_string (decimal k) = Some k.
Proof.
  unfold decimal. by rewrite decode_uint, DecimalNat.Unsigned.of_to.
Qed.

(** Reading the digits of [%04d] back gives the number. *)
Lemma decode_pad4 k :
  Nat.of_uint <$> NilEmpty.uint_of_string (pad4 k) = Some k.
Proof. unfold pad4. cbn zeta. by rewrite decode_zeros, decode_decimal. Qed.

Lemma pad4_inj k k' : pad4 k = pad4 k' → k = k'.
Proof.
  intros H. pose proof (decode_pad4 k) as Hk. rewrite H, decode_pad4 in Hk.
  by injection Hk.
Qed.

End StringFacts.

Section OutputNames.
Import NameFacts FSFacts StringFacts.

Lemma name_of_child d n : name_of (d / n) = n.
Proof. unfold name_of, child. by rewrite last_snoc. Qed.

Lemma frame_name_inj k k' : Name.frame_name k = Name.frame_name k' → k = k'.
Proof.
  unfold Name.frame_name. intros H. apply (inj _) in H.
  by apply append_inj_r, pad4_inj in H.
Qed.

Lemma NoDup_frame_names n : NoDup (Name.frame_name <$> seq 1 n).
Proof.
  apply NoDup_fmap_2_strong; [|apply NoDup_seq].
  intros k k' _ _. apply frame_name_inj.
Qed.


Lemma get_video_files_NoDup vd w : NoDup (get_video_files vd w).1.
Proof.
  rewrite get_video_files_eq. simpl. rewrite OrderFacts.sorted_Permutation.
  apply NoDup_app. split; [apply NoDup_glob|]. split; [|apply NoDup_glob].
  intros p Hl Hu.
  apply elem_of_glob in Hl as (_ & n & -> & _ & Hn).
  apply elem_of_glob in Hu as (_ & m & Heq & _ & Hm).
  apply (inj _) in Heq as <-.
  apply fnmatch_mp4 in Hn. apply fnmatch_MP4 in Hm.
  by apply (mp4_MP4_disjoint n).
Qed.

End OutputNames.



(** X2. Two videos whose names do not start with the extension share their
    frame directory exactly when their names are the same up to the case of
    the extension. *)
Theorem X2_shared_frame_directory (videos_dir : path)
    (base1 base2 ext1 ext2 : string) :
  (ext1 = ".mp4" ∨ ext1 = ".MP4") →
  (ext2 = ".mp4" ∨ ext2 = ".MP4") →
  base1 ≠ EmptyString →
  base2 ≠ EmptyString →
  frames_dir videos_dir (videos_dir / (base1 +:+ ext1))
  = frames_dir videos_dir (videos_dir / (base2 +:+ ext2))
  ↔ base1 = base2.
Proof.
  intros H1 H2 Hb1 Hb2. unfold frames_dir, stem_of. rewrite !name_of_child.
  assert (Name.stem (base1 +:+ ext1) = base1) as ->
    by (destruct H1 as [-> | ->];
        [by apply StringFacts.stem_mp4 | by apply StringFacts.stem_MP4]).
  assert (Name.stem (base2 +:+ ext2) = base2) as ->
    by (destruct H2 as [-> | ->];
        [by apply StringFacts.stem_mp4 | by apply StringFacts.stem_MP4]).
  split; [|by intros ->].
  intros H. unfold child in H. by simplify_list_eq.
Qed.

(** game1.MP4 and game1.mp4 share one frame directory. *)
Lemma X2_shared_frame_directory_witness :
  frames_dir ["videos"] (["videos"] / ("game1" +:+ ".MP4"))
  = frames_dir ["videos"] (["videos"] / ("game1" +:+ ".mp4")).
Proof.
  apply (X2_shared_frame_directory ["videos"] "game1" "game1" ".MP4" ".mp4");
    [by right | by left | done | done | done].
Defined.

(** X3. The pattern [frame_%04d.jpg] gives different frame numbers different
    file names, also beyond frame 9999. *)
Theorem X3_frame_names_are_distinct (k k' : nat) :
  Name.frame_name k = Name.frame_name k' ↔ k = k'.
Proof. split; [apply frame_name_inj | by intros ->]. Qed.

Section CountFacts.
Import NameFacts FSFacts.

Lemma elem_of_glob_frames s d p :
  p ∈ FS.glob s d "frame_*.jpg" ↔
  FS.present s d ∧ ∃ e, p = d / e ∧ d / e ∈ s ∧ Name.is_frame_name e.
Proof. rewrite elem_of_glob. by setoid_rewrite fnmatch_frame. Qed.

Lemma NoDup_frame_paths out n : NoDup (FS.frame_paths out n).
Proof.
  unfold FS.frame_paths. apply NoDup_fmap_2_strong; [|apply NoDup_seq].
  intros k k' _ _ H. by apply (inj _), frame_name_inj in H.
Qed.

Lemma length_frame_paths out n : length (FS.frame_paths out n) = n.
Proof. unfold FS.frame_paths. by rewrite length_fmap, length_seq. Qed.

Lemma elem_of_frame_paths out n p :
  p ∈ FS.frame_paths out n ↔ ∃ k, 1 ≤ k ≤ n ∧ p = out / Name.frame_name k.
Proof.
  unfold FS.frame_paths. rewrite list_elem_of_fmap. split.
  - intros (k & -> & Hk%elem_of_seq). exists k. split; [lia | done].
  - intros (k & Hk & ->). exists k. split; [done|]. apply elem_of_seq. lia.
Qed.

(** An entry of a directory is not one of the directories above it. *)
Lemma entry_not_prefix d e r : d ≠ (d / e) ++ r.
Proof.
  intros H. apply (f_equal length) in H. unfold child in H.
  rewrite !length_app in H. simpl in H. lia.
Qed.

(** Listing a directory that has gained entries gives at least as many
    matches. *)
Lemma glob_length_mono s s' d pat :
  s ⊆ s' → length (FS.glob s d pat) ≤ length (FS.glob s' d pat).
Proof.
  intros Hs. apply submseteq_length, NoDup_submseteq; [apply NoDup_glob|].
  intros p. rewrite !elem_of_glob. intros (Hd & n & -> & Hn & Hm).
  split; [by eapply present_mono|]. exists n. split; [done|].
  split; [by apply Hs | done].
Qed.

End CountFacts.

(** X4. After a run of the tool that exits with status 0, the frame count
    [extract_frames] returns is at least the number of frames the tool
    wrote and at least the number of frame files that were there before;
    when the output directory held no frame file before, it is exactly the
    number of frames written. *)
Theorem X4_success_count
    (ffmpeg : nat → path → tool_run) (video_path output_dir : path) (w : world) :
  status (ffmpeg (length (invocations w)) video_path) = Exit0 →
  ∃ n,
    (extract_frames ffmpeg video_path output_dir w).1 = (true, n, None)
    ∧ frames_written (ffmpeg (length (invocations w)) video_path) ≤ n
    ∧ (∀ m, FS.entries (files w) output_dir Name.is_frame_name m → m ≤ n)
    ∧ ((∀ e, output_dir / e ∈ files w → ¬ Name.is_frame_name e) →
       n = frames_written (ffmpeg (length (invocations w)) video_path)).
Proof.
  intros Hst. rewrite extract_frames_eq. cbn zeta. rewrite Hst. simpl.
  set (k := frames_written (ffmpeg (length (invocations w)) video_path)).
  set (s' := FS.write_frames output_dir k (FS.mkdir_p output_dir (files w))).
  assert (FS.present s' output_dir) as Hout.
  { apply (FSFacts.present_mono (FS.mkdir_p output_dir (files w)));
      [apply union_subseteq_l | apply FSFacts.mkdir_p_self]. }
  assert (∀ p, p ∈ FS.frame_paths output_dir k →
               p ∈ FS.glob s' output_dir "frame_*.jpg") as Hwritten.
  { intros p (j & Hj & ->)%elem_of_frame_paths. apply elem_of_glob_frames.
    split; [done|]. exists (Name.frame_name j). split; [done|].
    split; [|apply NameFacts.frame_name_is_frame].
    apply FSFacts.elem_of_write_frames. right. by exists j. }
  eexists. split; [reflexivity|]. split; [|split].
  - etrans; [apply Nat.eq_le_incl; symmetry; apply (length_frame_paths output_dir)|].
    by apply submseteq_length, NoDup_submseteq; [apply NoDup_frame_paths|].
  - intros m (l & Hl & Hin & <-).
    rewrite <- (length_fmap (child output_dir) l).
    apply submseteq_length, NoDup_submseteq; [by apply (NoDup_fmap_2 _)|].
    intros p (e & -> & [He Hf]%Hin)%list_elem_of_fmap.
    apply elem_of_glob_frames. split; [done|]. exists e. split; [done|].
    split; [|done].
    apply FSFacts.elem_of_write_frames. left.
    apply FSFacts.elem_of_mkdir_p. by left.
  - intros Hfresh.
    etrans; [|apply (length_frame_paths output_dir)].
    apply Permutation_length, NoDup_Permutation;
      [apply FSFacts.NoDup_glob | apply NoDup_frame_paths |].
    intros p. split; [|apply Hwritten].
    intros (_ & e & -> & He & Hf)%elem_of_glob_frames.
    apply FSFacts.elem_of_write_frames in He as [He | He];
      [|by apply elem_of_frame_paths].
    apply FSFacts.elem_of_mkdir_p in He as [He | (_ & r & Hr)].
    + by destruct (Hfresh e).
    + by apply entry_not_prefix in Hr.
Qed.

(** Three frames written into a directory that held none: the count is 3. *)
Lemma X4_success_count_witness :
  ∃ n,
    (extract_frames (λ _ _, ToolRun Exit0 EmptyString 3)
       ["videos"; "game1.mp4"] ["videos"; "game1"; "all_frames"]
       (World {[ ["videos"]; ["videos"; "game1.mp4"] ]} [] [])).1
    = (true, n, None)
    ∧ n = 3.
Proof.
  destruct (X4_success_count (λ _ _, ToolRun Exit0 EmptyString 3)
              ["videos"; "game1.mp4"] ["videos"; "game1"; "all_frames"]
              (World {[ ["videos"]; ["videos"; "game1.mp4"] ]} [] []) eq_refl)
    as (n & Hr & _ & _ & Hfresh).
  exists n. split; [exact Hr|]. apply Hfresh.
  intros e He. exfalso. revert He. simpl.
  rewrite <- FSFacts.elem_of_listdir. vm_compute. apply elem_of_nil.
Defined.

(* ===================================================================== *)
(** * What a run does, and what it leaves alone                           *)
(* ===================================================================== *)

Section WholeRun.
Import NameFacts FSFacts.

Variable ffmpeg : nat → path → tool_run.

(** The three ways [process_videos] goes. *)
Lemma process_videos_cases vd force w :
  let vs := (get_video_files vd w).1 in
  let N := length vs in
  let start := World (files w) (stdout w ++ [Rule; Found N; Rule]) (invocations w) in
  let r := loop ffmpeg vd force N 1 vs (Counters 0 0 0) start in
  (¬ FS.present (files w) vd
   ∧ process_videos ffmpeg vd force w
     = (tt, World (files w) (stdout w ++ [DirNotFound vd; PleaseCreate])
              (invocations w)))
  ∨ (FS.present (files w) vd ∧ vs = []
     ∧ process_videos ffmpeg vd force w
       = (tt, World (files w) (stdout w ++ [NoVideos vd]) (invocations w)))
  ∨ (FS.present (files w) vd ∧ vs ≠ []
     ∧ process_videos ffmpeg vd force w
       = (tt, World (files r.2) (stdout r.2 ++ summary r.1 N) (invocations r.2))).
Proof.
  intros vs N start r.
  destruct (decide (FS.present (files w) vd)) as [Hvd | Hvd].
  - destruct (decide (vs = [])) as [Hvs | Hvs].
    + right; left. split; [done|]. split; [done|].
      by apply process_videos_no_videos.
    + right; right. split; [done|]. split; [done|].
      by apply process_videos_run.
  - left. split; [done|]. by apply process_videos_no_dir.
Qed.



(** No attempt puts anything into a [release_frames] directory. *)
Lemma touched_not_in_release vd v x e :
  ¬ touched vd v (vd / x / "release_frames" / e).
Proof.
  unfold touched. rewrite frames_dir_eq, release_dir_eq. unfold child.
  intros [(_ & r & Hr) | [(_ & r & Hr) | (k & Hk)]];
    rewrite <- ?app_assoc in *; simplify_list_eq.
Qed.

Lemma files_after_attempt_release vd v n s :
  FS.present (files_after_attempt vd v n s) (release_dir vd v).
Proof.
  unfold files_after_attempt.
  apply (present_mono (FS.mkdir_p (release_dir vd v)
                         (FS.mkdir_p (frames_dir vd v) s)));
    [|apply mkdir_p_self].
  intros q Hq. apply elem_of_write_frames. left. apply elem_of_mkdir_p. by left.
Qed.

(** After the loop, every video the tool was run on has its two
    directories. *)
Lemma loop_attempted_dirs vd force total i vs c w v :
  v ∈ invocations (loop ffmpeg vd force total i vs c w).2 →
  v ∈ invocations w
  ∨ (FS.present (files (loop ffmpeg vd force total i vs c w).2) (frames_dir vd v)
     ∧ FS.present (files (loop ffmpeg vd force total i vs c w).2) (release_dir vd v)).
Proof.
  revert i c w. induction vs as [|v0 vs IH]; intros i c w; simpl; [by left|].
  unfold mbind, M_bind.
  destruct (loop_body_cases ffmpeg vd force total i v0 c w)
    as [(_ & _ & ->) | (_ & tail & -> & _)].
  - intros [Hv | Hv]%IH; [by left | by right].
  - match goal with |- context [loop _ _ _ _ _ _ ?c1 ?w1] =>
      set (c' := c1); set (w' := w1) end.
    intros [Hv | Hv]%IH; [|by right].
    simpl in Hv. apply elem_of_app in Hv as [Hv | Hv]; [by left | right].
    apply list_elem_of_singleton in Hv as ->.
    pose proof (loop_files_mono ffmpeg vd force total (S i) vs c' w') as Hmono.
    split; (eapply present_mono; [exact Hmono|]); simpl.
    + apply files_after_attempt_dir.
    + apply files_after_attempt_release.
Qed.

(** The tool is run on some of the videos, in the order of the list. *)
Lemma loop_invocations_sublist vd force total i vs c w :
  ∃ inv,
    invocations (loop ffmpeg vd force total i vs c w).2 = invocations w ++ inv
    ∧ inv `sublist_of` vs.
Proof.
  revert i c w. induction vs as [|v vs IH]; intros i c w; simpl.
  - exists []. unfold mret, M_ret; simpl. by rewrite app_nil_r.
  - unfold mbind, M_bind.
    destruct (loop_body_cases ffmpeg vd force total i v c w)
      as [(_ & _ & ->) | (_ & tail & -> & _)].
    + match goal with |- context [loop _ _ _ _ _ _ ?c1 ?w1] =>
        destruct (IH (S i) c1 w1) as (inv & Hinv & Hsub) end.
      exists inv. split; [exact Hinv | by apply sublist_cons].
    + match goal with |- context [loop _ _ _ _ _ _ ?c1 ?w1] =>
        destruct (IH (S i) c1 w1) as (inv & Hinv & Hsub) end.
      exists (v :: inv). split; [|by apply sublist_skip].
      rewrite Hinv. simpl. by rewrite <- app_assoc.
Qed.

End WholeRun.

(** A run of [process_videos] keeps what was there: it adds files, lines
    and invocations. *)
Lemma process_videos_grows (ffmpeg : nat → path → tool_run) vd force w :
  let w' := (process_videos ffmpeg vd force w).2 in
  files w ⊆ files w'
  ∧ (∃ out, stdout w' = stdout w ++ out)
  ∧ ∃ inv, invocations w' = invocations w ++ inv
           ∧ inv `sublist_of` (get_video_files vd w).1.
Proof.
  destruct (process_videos_cases ffmpeg vd force w)
    as [(_ & ->) | [(_ & _ & ->) | (_ & _ & ->)]];
    cbn [snd files stdout invocations].
  - split; [done|]. split; [by eauto|]. exists [].
    rewrite app_nil_r. split; [done | apply sublist_nil_l].
  - split; [done|]. split; [by eauto|]. exists [].
    rewrite app_nil_r. split; [done | apply sublist_nil_l].
  - set (N := length (get_video_files vd w).1).
    set (start := World (files w) (stdout w ++ [Rule; Found N; Rule]) (invocations w)).
    split; [|split].
    + apply (loop_files_mono ffmpeg vd force N 1 _ (Counters 0 0 0) start).
    + destruct (loop_stdout ffmpeg vd force N 1 (get_video_files vd w).1
                  (Counters 0 0 0) start) as [body ->].
      cbn [stdout start]. rewrite <- !app_assoc. by eauto.
    + apply (loop_invocations_sublist ffmpeg vd force N 1 _ (Counters 0 0 0) start).
Qed.



(** X6. Nothing [main] does removes a file, a printed line or a recorded
    invocation: the files after it include the files before it, and the
    output and the invocations are the earlier ones with more at the end. *)
Theorem X6_run_only_adds
    (ffmpeg : nat → path → tool_run) (home : path)
    (ffmpeg_version : option string) (a : args) (w : world) :
  let w' := (main ffmpeg home ffmpeg_version a w).2 in
  files w ⊆ files w'
  ∧ (∃ out, stdout w' = stdout w ++ out)
  ∧ ∃ inv, invocations w' = invocations w ++ inv.
Proof.
  cbn zeta. rewrite main_eq. cbn zeta.
  assert (∀ vd lines,
            let w0 := World (files w) (stdout w ++ lines) (invocations w) in
            let w' := (process_videos ffmpeg vd (force_arg a) w0).2 in
            files w ⊆ files w'
            ∧ (∃ out, stdout w' = stdout w ++ out)
            ∧ ∃ inv, invocations w' = invocations w ++ inv) as Hrun.
  { intros vd lines w0 w'.
    destruct (process_videos_grows ffmpeg vd (force_arg a) w0)
      as (Hf & [out Hout] & inv & Hinv & _).
    split; [exact Hf|]. split.
    - exists (lines ++ out). subst w'. rewrite Hout. simpl.
      by rewrite <- app_assoc.
    - by exists inv. }
  assert (∀ lines,
            let w' := World (files w) (stdout w ++ lines) (invocations w) in
            files w ⊆ files w'
            ∧ (∃ out, stdout w' = stdout w ++ out)
            ∧ ∃ inv, invocations w' = invocations w ++ inv) as Hprint.
  { intros lines. simpl. split; [done|]. split; [by eauto|].
    exists []. by rewrite app_nil_r. }
  destruct (override_given a);
    [|destruct (decide (FS.present (files w) (home / "Desktop")))];
    try destruct ffmpeg_version as [version|]; simpl;
    (apply Hrun || apply Hprint).
Qed.



(** X8. After [process_videos], every video the tool was run on has its
    [all_frames] and its [release_frames] directory, whatever the tool did;
    and the run puts nothing into any [release_frames] directory. *)
Theorem X8_directories_of_attempted_videos
    (ffmpeg : nat → path → tool_run) (videos_dir : path) (force : bool)
    (w : world) :
  let w' := (process_videos ffmpeg videos_dir force w).2 in
  (∀ v, v ∈ invocations w' →
        v ∈ invocations w
        ∨ (FS.present (files w') (videos_dir / stem_of v / "all_frames")
           ∧ FS.present (files w') (videos_dir / stem_of v / "release_frames")))
  ∧ (∀ x e, videos_dir / x / "release_frames" / e ∈ files w' →
            videos_dir / x / "release_frames" / e ∈ files w).
Proof.
  destruct (process_videos_cases ffmpeg videos_dir force w)
    as [(_ & ->) | [(_ & _ & ->) | (_ & _ & ->)]]; simpl;
    [split; [by left | done]..|].
  split.
  - intros v [Hv | Hv]%loop_attempted_dirs; [by left | by right].
  - intros x e [Hq | (v & _ & Hq)]%loop_files_bound; [done|].
    by apply touched_not_in_release in Hq.
Qed.

(** The tool fails on the only video: the two directories are there. *)
Lemma X8_directories_of_attempted_videos_witness :
  FS.present
    (files (process_videos failing_tool ["videos"] false unreadable_world).2)
    ["videos"; "bad"; "all_frames"]
  ∧ FS.present
      (files (process_videos failing_tool ["videos"] false unreadable_world).2)
      ["videos"; "bad"; "release_frames"].
Proof.
  destruct (X8_directories_of_attempted_videos failing_tool ["videos"] false
              unreadable_world) as [Hdirs _].
  destruct (Hdirs ["videos"; "bad.mp4"]) as [Hin | Hpresent].
  - vm_compute. apply elem_of_cons. by left.
  - exfalso. vm_compute in Hin. by apply elem_of_nil in Hin.
  - exact Hpresent.
Defined.

(** X9. [process_videos] runs the tool at most once on each video found, on
    no other path, and in the order in which the videos were found. *)
Theorem X9_tool_runs_once_per_video_in_order
    (ffmpeg : nat → path → tool_run) (videos_dir : path) (force : bool)
    (w : world) :
  ∃ inv,
    invocations (process_videos ffmpeg videos_dir force w).2
    = invocations w ++ inv
    ∧ inv `sublist_of` (get_video_files videos_dir w).1
    ∧ NoDup inv.
Proof.
  destruct (process_videos_grows ffmpeg videos_dir force w)
    as (_ & _ & inv & Hinv & Hsub).
  exists inv. split; [exact Hinv|]. split; [exact Hsub|].
  eapply sublist_NoDup; [apply get_video_files_NoDup | exact Hsub].
Qed.

Lemma check_count s v vd :
  (check s v vd).2 = length (FS.glob s (frames_dir vd v) "frame_*.jpg").
Proof. unfold check. by destruct (FS.glob s _ _). Qed.

(** X10. After the loop body has run the tool on a video, the check reports
    the video processed exactly when it did so before or the tool wrote at
    least one frame, whatever the exit status: a failed run that wrote a
    frame makes the video count as processed, a run that wrote nothing
    changes nothing.  (The filesystem is one in which an entry of the frame
    directory implies the directory.) *)
Theorem X10_processed_after_attempt
    (ffmpeg : nat → path → tool_run) (videos_dir : path) (force : bool)
    (total i : nat) (v : path) (c : counters) (w : world) :
  (is_already_processed v videos_dir w).1.1 && negb force = false →
  (∀ e, videos_dir / stem_of v / "all_frames" / e ∈ files w →
        FS.present (files w) (videos_dir / stem_of v / "all_frames")) →
  let w' := (loop_body ffmpeg videos_dir force total i v c w).2 in
  (is_already_processed v videos_dir w').1.1 = true
  ↔ (is_already_processed v videos_dir w).1.1 = true
    ∨ 1 ≤ frames_written (ffmpeg (length (invocations w)) v).
Proof.
  intros Hattempt Hwf. cbn zeta. rewrite !is_already_processed_eq in *.
  cbn [fst snd] in *.
  destruct (loop_body_cases ffmpeg videos_dir force total i v c w)
    as [(Hc & -> & _) | (_ & tail & -> & _)];
    [by rewrite Hc in Hattempt|].
  cbn [snd files]. clear Hattempt.
  set (n := frames_written (ffmpeg (length (invocations w)) v)).
  fold (frames_dir videos_dir v) in Hwf.
  rewrite !check_true_iff. split.
  - intros (_ & e & He & Hf). unfold files_after_attempt in He.
    apply FSFacts.elem_of_write_frames in He as [He | (k & Hk & _)];
      [|right; lia].
    left.
    assert (frames_dir videos_dir v / e ∈ files w) as Hin.
    { repeat (apply FSFacts.elem_of_mkdir_p in He as [He | (_ & r & Hr)]);
        [done|..].
      - by apply entry_not_prefix in Hr.
      - exfalso. revert Hr. rewrite release_dir_eq, frames_dir_eq.
        unfold child. rewrite <- !app_assoc. intros Hr. by simplify_list_eq.
      - by apply entry_not_prefix in Hr. }
    split; [by apply (Hwf e) | by exists e].
  - intros [(Hd & e & He & Hf) | Hn].
    + split; [by eapply FSFacts.present_mono;
                [apply files_after_attempt_mono|]|].
      exists e. split; [by apply files_after_attempt_mono | done].
    + split; [apply files_after_attempt_dir|].
      exists (Name.frame_name 1). split; [|apply NameFacts.frame_name_is_frame].
      apply files_after_attempt_frame. lia.
Qed.

(** The tool times out after two frames: the video counts as processed. *)
Lemma X10_processed_after_attempt_witness :
  (is_already_processed ["videos"; "long.mp4"] ["videos"]
     (loop_body (λ _ _, ToolRun TimedOut EmptyString 2) ["videos"] false 1 1
        ["videos"; "long.mp4"] (Counters 0 0 0)
        (World {[ ["videos"]; ["videos"; "long.mp4"] ]} [] [])).2).1.1 = true.
Proof.
  apply (X10_processed_after_attempt (λ _ _, ToolRun TimedOut EmptyString 2)
           ["videos"] false 1 1 ["videos"; "long.mp4"] (Counters 0 0 0)
           (World {[ ["videos"]; ["videos"; "long.mp4"] ]} [] [])).
  - vm_compute. reflexivity.
  - intros e He. exfalso. revert He. simpl.
    rewrite <- FSFacts.elem_of_listdir. vm_compute. apply elem_of_nil.
  - right. simpl. lia.
Defined.

(** X11. A run of [process_videos] never turns a processed video back into
    an unprocessed one, and never lowers the number of frames the check
    counts for a video. *)
Theorem X11_processed_stays_processed
    (ffmpeg : nat → path → tool_run) (videos_dir : path) (force : bool)
    (w : world) (v : path) :
  let before := (is_already_processed v videos_dir w).1 in
  let after :=
    (is_already_processed v videos_dir
       (process_videos ffmpeg videos_dir force w).2).1 in
  before.2 ≤ after.2 ∧ (before.1 = true → after.1 = true).
Proof.
  cbn zeta. rewrite !is_already_processed_eq. cbn [fst snd].
  destruct (process_videos_grows ffmpeg videos_dir force w) as (Hf & _).
  split.
  - rewrite !check_count. by apply glob_length_mono.
  - by apply check_mono.
Qed.

(** A processed video is still processed, with as many frames, after a
    forced run in which the tool fails. *)
Lemma X11_processed_stays_processed_witness :
  (is_already_processed ["videos"; "a.mp4"] ["videos"]
     (process_videos failing_tool ["videos"] true
        (World {[ ["videos"]; ["videos"; "a.mp4"]; ["videos"; "a"];
                  ["videos"; "a"; "all_frames"];
                  ["videos"; "a"; "all_frames"; "frame_0001.jpg"] ]} [] [])).2).1.1
  = true.
Proof.
  apply (X11_processed_stays_processed failing_tool ["videos"] true
           (World {[ ["videos"]; ["videos"; "a.mp4"]; ["videos"; "a"];
                     ["videos"; "a"; "all_frames"];
                     ["videos"; "a"; "all_frames"; "frame_0001.jpg"] ]} [] [])
           ["videos"; "a.mp4"]).
  vm_compute. reflexivity.
Defined.



(** X13. Without [--force], a run over a directory in which every video
    found is already processed changes no file and does not run the tool;
    when there is a video, its summary is 0 processed, all skipped, 0
    failed. *)
Theorem X13_processed_directory_is_left_alone
    (ffmpeg : nat → path → tool_run) (videos_dir : path) (w : world) :
  let vs := (get_video_files videos_dir w).1 in
  let r := (process_videos ffmpeg videos_dir false w).2 in
  (∀ v, v ∈ vs → (is_already_processed v videos_dir w).1.1 = true) →
  files r = files w
  ∧ invocations r = invocations w
  ∧ (vs ≠ [] →
     printed_summary (stdout r)
     = Some (Counters 0 (length vs) 0, length vs)).
Proof.
  intros vs r Hall. subst r.
  destruct (process_videos_cases ffmpeg videos_dir false w)
    as [(Hno & ->) | [(_ & Hvs & ->) | (_ & _ & ->)]];
    cbn [snd files stdout invocations].
  - split; [done|]. split; [done|]. intros Hne. exfalso. apply Hne.
    subst vs. rewrite get_video_files_eq. cbn [fst].
    by rewrite !FSFacts.glob_absent.
  - split; [done|]. split; [done|]. by intros Hne.
  - fold vs. set (N := length vs).
    set (start := World (files w) (stdout w ++ [Rule; Found N; Rule])
                    (invocations w)).
    destruct (loop_all_skipped ffmpeg videos_dir N 1 vs (Counters 0 0 0) start)
      as (Hf & Hi & Hc).
    { intros v Hv. specialize (Hall v Hv).
      by rewrite is_already_processed_eq in Hall. }
    cbn zeta in Hf, Hi, Hc. rewrite Hf, Hi, Hc.
    split; [done|]. split; [done|]. intros _. apply printed_summary_app.
Qed.

(** One processed video: nothing is written and the tool is not run. *)
Lemma X13_processed_directory_is_left_alone_witness :
  files (process_videos one_frame_tool ["videos"] false
           (World {[ ["videos"]; ["videos"; "a.mp4"]; ["videos"; "a"];
                     ["videos"; "a"; "all_frames"];
                     ["videos"; "a"; "all_frames"; "frame_0001.jpg"] ]}
              [] [])).2
  = {[ ["videos"]; ["videos"; "a.mp4"]; ["videos"; "a"];
       ["videos"; "a"; "all_frames"];
       ["videos"; "a"; "all_frames"; "frame_0001.jpg"] ]}.
Proof.
  destruct (X13_processed_directory_is_left_alone one_frame_tool ["videos"]
              (World {[ ["videos"]; ["videos"; "a.mp4"]; ["videos"; "a"];
                        ["videos"; "a"; "all_frames"];
                        ["videos"; "a"; "all_frames"; "frame_0001.jpg"] ]}
                 [] [])) as (Hfiles & _); [|exact Hfiles].
  intros v Hv. vm_compute in Hv.
  apply list_elem_of_singleton in Hv as ->. vm_compute. reflexivity.
Defined.



(** X15. With a non-empty [--videos-dir] the home directory is not
    consulted: [main] prints, writes and returns the same for every home
    directory, and the directory it names is the one given. *)
Theorem X15_override_ignores_home
    (ffmpeg : nat → path → tool_run) (home home' : path)
    (ffmpeg_version : option string) (a : args) (w : world) :
  override_given a = true →
  main ffmpeg home ffmpeg_version a w = main ffmpeg home' ffmpeg_version a w
  ∧ ∃ s out,
      videos_dir_arg a = Some s
      ∧ stdout (main ffmpeg home ffmpeg_version a w).2
        = stdout w ++ VideosDirectory (Path s) :: out.
Proof.
  intros Ha. rewrite !main_eq. cbn zeta. rewrite Ha. split; [done|].
  unfold override_given in Ha.
  destruct (videos_dir_arg a) as [s|]; [|done].
  exists s. cbn [default].
  destruct ffmpeg_version as [version|]; cbn [snd stdout].
  - destruct (process_videos_grows ffmpeg (Path s) (force_arg a)
                (World (files w)
                   (stdout w ++ [VideosDirectory (Path s); FFmpegFound version])
                   (invocations w))) as (_ & (out & Hout) & _).
    cbn zeta in Hout. cbn [stdout] in Hout.
    exists (FFmpegFound version :: out). split; [done|].
    etrans; [exact Hout|]. by rewrite <- app_assoc.
  - by exists [FFmpegNotFound; BrewInstall].
Qed.

(** The same run with and without a desktop folder in the home directory. *)
Lemma X15_override_ignores_home_witness :
  main one_frame_tool ["home"; "u"] (Some "ffmpeg version 6.0")
    (Args (Some "videos") false)
    (World {[ ["videos"]; ["videos"; "a.mp4"] ]} [] [])
  = main one_frame_tool [] (Some "ffmpeg version 6.0")
      (Args (Some "videos") false)
      (World {[ ["videos"]; ["videos"; "a.mp4"] ]} [] []).
Proof.
  destruct (X15_override_ignores_home one_frame_tool ["home"; "u"] []
              (Some "ffmpeg version 6.0") (Args (Some "videos") false)
              (World {[ ["videos"]; ["videos"; "a.mp4"] ]} [] []))
    as (Hsame & _); [|exact Hsame].
  vm_compute. reflexivity.
Defined.

(** X16. The idempotency check reads nothing but the video's frame
    directory: in two filesystems that agree on whether that directory
    exists and on its entries, it returns the same answer and the same
    count, whatever else differs (the video file itself included). *)
Theorem X16_check_reads_only_frame_directory
    (video_path videos_dir : path) (w w' : world) :
  let d := videos_dir / stem_of video_path / "all_frames" in
  (FS.present (files w) d ↔ FS.present (files w') d) →
  (∀ e, d / e ∈ files w ↔ d / e ∈ files w') →
  (is_already_processed video_path videos_dir w).1
  = (is_already_processed video_path videos_dir w').1.
Proof.
  intros d Hd He. rewrite !is_already_processed_eq. cbn [fst].
  by apply check_agree.
Qed.

(** The video file is deleted and an unrelated file appears: the answer is
    the same. *)
Lemma X16_check_reads_only_frame_directory_witness :
  (is_already_processed ["videos"; "a.mp4"] ["videos"]
     (World {[ ["videos"]; ["videos"; "a.mp4"]; ["videos"; "a"];
               ["videos"; "a"; "all_frames"];
               ["videos"; "a"; "all_frames"; "frame_0001.jpg"] ]} [] [])).1
  = (is_already_processed ["videos"; "a.mp4"] ["videos"]
       (World {[ ["videos"]; ["videos"; "notes.txt"]; ["videos"; "a"];
                 ["videos"; "a"; "all_frames"];
                 ["videos"; "a"; "all_frames"; "frame_0001.jpg"] ]} [] [])).1.
Proof.
  apply (X16_check_reads_only_frame_directory ["videos"; "a.mp4"] ["videos"]
           (World {[ ["videos"]; ["videos"; "a.mp4"]; ["videos"; "a"];
                     ["videos"; "a"; "all_frames"];
                     ["videos"; "a"; "all_frames"; "frame_0001.jpg"] ]} [] [])
           (World {[ ["videos"]; ["videos"; "notes.txt"]; ["videos"; "a"];
                     ["videos"; "a"; "all_frames"];
                     ["videos"; "a"; "all_frames"; "frame_0001.jpg"] ]} [] [])).
  - split; intros _; right; vm_compute; reflexivity.
  - intros e. simpl. rewrite <- !FSFacts.elem_of_listdir.
    match goal with |- _ ∈ ?l ↔ _ ∈ ?l' =>
      assert (l = l') as -> by (vm_compute; reflexivity) end.
    reflexivity.
Defined.
